(** * cupy.linalg.decomposition: the Cholesky wrapper

    A shallow embedding of [cupy/linalg/decomposition.py]: the three
    validators, the dtype resolver, the dispatch to the native [potrf]
    solver, the classification of its status and the triangular mask
    [_tril].

    Device memory is a finite map from buffer addresses to their contents,
    an array is a dtype, a shape and the address of its buffer, and the
    Python code is written in a state-and-exception monad over that store
    and a log of the device operations performed. *)

From Stdlib Require Import ZArith String List Bool Lia DecimalString DecimalPos DecimalZ.
From Stdlib Require Import SpecFloat.
From stdpp Require Import base option list gmap.

Local Open Scope string_scope.
Local Open Scope list_scope.
Local Open Scope Z_scope.

(** ** Element types *)

(** The one-character type codes of numpy's numeric dtypes, [dtype.char]:
    bool, the signed and unsigned integers, the floats and the complex
    types.  Sizes are those of an LP64 platform ([l] and [q] are both 64
    bits wide). *)
Inductive dtype_char : Type :=
| c_bool                                   (* '?' *)
| c_b | c_B | c_h | c_H | c_i | c_I | c_l | c_L | c_q | c_Q
| c_e | c_f | c_d | c_g                    (* float16/32/64, longdouble *)
| c_F | c_D | c_G.                         (* complex64/128, clongdouble *)

#[global] Instance dtype_char_eq_dec : EqDecision dtype_char.
Proof. solve_decision. Defined.

Inductive dtype_kind : Type := KBool | KInt | KUInt | KFloat | KComplex.

Definition kind (c : dtype_char) : dtype_kind :=
  match c with
  | c_bool => KBool
  | c_b | c_h | c_i | c_l | c_q => KInt
  | c_B | c_H | c_I | c_L | c_Q => KUInt
  | c_e | c_f | c_d | c_g => KFloat
  | c_F | c_D | c_G => KComplex
  end.

(** Width in bits of one component: of the integer, of the float, or of
    the real part of the complex number. *)
Definition bits (c : dtype_char) : Z :=
  match c with
  | c_bool => 1
  | c_b | c_B => 8
  | c_h | c_H | c_e => 16
  | c_i | c_I | c_f | c_F => 32
  | c_l | c_L | c_q | c_Q | c_d | c_D => 64
  | c_g | c_G => 128
  end.

Module Numpy.

(** [numpy.can_cast(src, dst)] under the default 'safe' rule.  An
    integer goes to a float whose width is at least twice its own (with
    numpy's exception that 64-bit integers go to float64), a signed
    integer never goes to an unsigned one, nothing complex goes to a real
    type. *)
Definition can_cast (src dst : dtype_char) : bool :=
  match kind src, kind dst with
  | KBool, _ => true
  | _, KBool => false
  | KInt, KInt => bits src <=? bits dst
  | KInt, KUInt => false
  | KUInt, KUInt => bits src <=? bits dst
  | KUInt, KInt => bits src <? bits dst
  | (KInt | KUInt), (KFloat | KComplex) =>
      (2 * bits src <=? bits dst) || ((bits src =? 64) && (bits dst =? 64))
  | KFloat, (KInt | KUInt) => false
  | KFloat, (KFloat | KComplex) => bits src <=? bits dst
  | KComplex, KComplex => bits src <=? bits dst
  | KComplex, _ => false
  end.

(** [numerictypes.__test_types] without its last entry, the object type,
    which no array of this model has:
    ['?' + typecodes['AllInteger'][:-2] + typecodes['AllFloat']]. *)
Definition test_types : list dtype_char :=
  [c_bool; c_b; c_B; c_h; c_H; c_i; c_I; c_l; c_L; c_q; c_Q;
   c_e; c_f; c_d; c_g; c_F; c_D; c_G].

(** [_can_coerce_all(dtypelist, start)]: [None] for the empty list,
    the only element of a singleton, else the first test type from
    position [start] on that every element can be cast to
    ([newdtype >= x] is [can_cast(x, newdtype)]). *)
Definition _can_coerce_all (dtypelist : list dtype_char) (start : nat)
  : option dtype_char :=
  match dtypelist with
  | [] => None
  | [t] => Some t
  | _ => List.find (fun newdtype => forallb (fun x => can_cast x newdtype) dtypelist)
           (drop start test_types)
  end.

(** Position of a kind in [_kind_list = ['b', 'u', 'i', 'f', 'c', ...]]. *)
Definition kind_index (c : dtype_char) : Z :=
  match kind c with
  | KBool => 0 | KUInt => 1 | KInt => 2 | KFloat => 3 | KComplex => 4
  end.

Fixpoint index_of (c : dtype_char) (l : list dtype_char) : nat :=
  match l with
  | [] => O
  | x :: r => if bool_decide (x = c) then O else S (index_of c r)
  end.

(** [_find_common_coerce(a, b)]; [a > b] on dtypes is "b casts to a and
    they differ". *)
Definition _find_common_coerce (a b : dtype_char) : option dtype_char :=
  if can_cast b a && negb (bool_decide (a = b)) then Some a
  else _can_coerce_all [a; b] (index_of a test_types).

(** [numpy.find_common_type(array_types, scalar_types)]: the array
    maximum, unless there are scalar types and their maximum is of a
    higher kind; the scalar maximum when there are no array types. *)
Definition find_common_type (array_types scalar_types : list dtype_char)
  : option dtype_char :=
  match _can_coerce_all array_types 0 with
  | None => _can_coerce_all scalar_types 0
  | Some maxa =>
      match _can_coerce_all scalar_types 0 with
      | None => Some maxa
      | Some maxsc =>
          if kind_index maxa <? kind_index maxsc
          then _find_common_coerce maxsc maxa
          else Some maxa
      end
  end.

End Numpy.

(** ** Exceptions *)

Inductive exn : Type :=
| RuntimeError (msg : string)
| LinAlgError (msg : string)
| ValueError (msg : string)
| AttributeError (msg : string).

#[global] Instance exn_eq_dec : EqDecision exn.
Proof. solve_decision. Defined.

(** Lines 34-39 of [cholesky]: the type the working buffer is cast to.
    [find_common_type] returns [None] when there is no common type, and
    the attribute access [.char] on it then raises. *)
Definition resolve_dtype (ret_dtype : dtype_char) : exn + dtype_char :=
  if bool_decide (ret_dtype = c_f) || bool_decide (ret_dtype = c_d) then inr ret_dtype
  else
    match Numpy.find_common_type [ret_dtype; c_f] [] with
    | Some t => inr t
    | None => inl (AttributeError "'NoneType' object has no attribute 'char'")
    end.

(** The real types of at most 64 bits: bool, the integers and float16,
    float32 and float64. *)
Definition real_upto_64 (c : dtype_char) : bool :=
  match kind c with
  | KComplex => false
  | _ => bits c <=? 64
  end.

(** ** Scalars and their arithmetic *)

(** What one cell of a device buffer holds: an integer (bool and integer
    dtypes), an IEEE 754 number (floating dtypes), or whatever
    [cupy.empty] left there.  The cells of complex buffers are not
    modelled: this version of cupy has no kernels for them. *)
Inductive scalar : Type :=
| VInt (z : Z)
| VFloat (f : spec_float)
| VUninit.

(** Precision and exponent range of the floating dtypes (those of double
    for the types that have none). *)
Definition prec (c : dtype_char) : Z :=
  match c with c_e => 11 | c_f => 24 | c_g => 64 | _ => 53 end.

Definition emax (c : dtype_char) : Z :=
  match c with c_e => 16 | c_f => 128 | c_g => 16384 | _ => 1024 end.

(** A bool cast to the floating type [c]: [True] is 1.0, [False] is +0.0. *)
Definition float_of_bool (c : dtype_char) (b : bool) : spec_float :=
  if b then SFone (prec c) (emax c) else S754_zero false.

(** One step of the elementwise loop of [x *= mask] for [x] of dtype [c]
    and a bool [mask]: the mask is cast to [c] and the two are
    multiplied, in IEEE arithmetic for a floating [x]. *)
Definition imul_mask (c : dtype_char) (x : scalar) (b : bool) : scalar :=
  match x with
  | VInt z => VInt (z * Z.b2z b)
  | VFloat f => VFloat (SFmul (prec c) (emax c) f (float_of_bool c b))
  | VUninit => VUninit
  end.

(** Equal to zero, as [x == 0] would say: +0.0 and -0.0 are both zero. *)
Definition is_zero (x : scalar) : bool :=
  match x with
  | VInt z => z =? 0
  | VFloat (S754_zero _) => true
  | _ => false
  end.

Definition is_nan (x : scalar) : bool :=
  match x with VFloat S754_nan => true | _ => false end.

(** Neither an infinity nor a NaN. *)
Definition is_finite (x : scalar) : bool :=
  match x with
  | VInt _ | VFloat (S754_zero _) | VFloat (S754_finite _ _ _) => true
  | _ => false
  end.

(** A cell that fits its buffer: a float of a floating buffer is a number
    of that format, in canonical form. *)
Definition valid_scalar (c : dtype_char) (x : scalar) : bool :=
  match x with
  | VFloat f => valid_binary (prec c) (emax c) f
  | VInt _ | VUninit => true
  end.

(** [m] shifted left by [k] bits. *)
Fixpoint shl (m : positive) (k : nat) : positive :=
  match k with O => m | S k => ((shl m k)~0)%positive end.

(** ** Arrays and device memory *)

Definition ptr := nat.

(** A [cupy.ndarray]: C-contiguous, its cells in row-major order in the
    buffer at [data]. *)
Record ndarray : Type := mk_ndarray {
  dtype : dtype_char;
  shape : list nat;
  data : ptr
}.

(** What [cholesky] may be handed: an array on the device, or one that is
    not a [cupy.core.ndarray] (a numpy array on the host). *)
Inductive pyobj : Type :=
| Device (a : ndarray)
| Host (a : ndarray).

Definition array_of (o : pyobj) : ndarray :=
  match o with Device a | Host a => a end.

Definition is_cupy_ndarray (o : pyobj) : bool :=
  match o with Device _ => true | Host _ => false end.

(** The operations that run on the device, as the log records them. *)
Inductive event : Type :=
| EvAstype (src dst : ptr) (to : dtype_char)
| EvGetHandle
| EvEmpty (p : ptr) (size : nat) (dt : dtype_char)
| EvBufferSize (dt : dtype_char) (n : nat)
| EvPotrf (dt : dtype_char) (n : nat) (x workspace devInfo : ptr)
| EvReadback (p : ptr)
| EvArange (n : nat)
| EvSubtract
| EvLessEqual
| EvMultiply (x : ptr).

Record state : Type := mk_state {
  heap : gmap ptr (list scalar);
  log : list event
}.

(** ** The monad: a store, a log, exceptions *)

Inductive result (A : Type) : Type :=
| Ok (a : A)
| Raise (e : exn).
Arguments Ok {A} a.
Arguments Raise {A} e.

Definition M (A : Type) : Type := state → result A * state.

#[global] Instance M_ret : MRet M := λ A a s, (Ok a, s).

#[global] Instance M_bind : MBind M := λ A B f m s,
  match m s with
  | (Ok a, s') => f a s'
  | (Raise e, s') => (Raise e, s')
  end.

Definition raise {A} (e : exn) : M A := λ s, (Raise e, s).

Definition lift {A} (r : exn + A) : M A :=
  match r with inl e => raise e | inr a => mret a end.

Definition emit (ev : event) : M unit :=
  λ s, (Ok (), mk_state (heap s) (log s ++ [ev])).

(** Modelled from the spec: the allocator of cupy.cuda.memory, which
    "provides freshly allocated device buffers".  A new buffer, at an
    address no live buffer has. *)
Definition alloc (cells : list scalar) : M ptr :=
  λ s, let p := fresh (dom (heap s)) in
       (Ok p, mk_state (<[p := cells]> (heap s)) (log s)).

Definition load (p : ptr) : M (list scalar) :=
  λ s, (Ok (default [] (heap s !! p)), s).

Definition store (p : ptr) (cells : list scalar) : M unit :=
  λ s, (Ok (), mk_state (<[p := cells]> (heap s)) (log s)).

(** ** The runtime the module is loaded in *)

Inductive precision : Type := Single | Double.

(** What the code takes from the rest of cupy and from the CUDA
    libraries: whether cusolver is there, the conversion kernel of
    [astype], and the two solver entry points of each precision
    ([spotrf_bufferSize] and [spotrf], [dpotrf_bufferSize] and [dpotrf]).
    [potrf] receives the order [n], the cells of the working buffer and the
    size of the workspace, and gives the cells it leaves in the buffer and
    the value it writes to [devInfo], an int32.  The native calls are
    functions of what they are given, they write through the pointers they
    are passed and nowhere else, the size they report is not negative, and
    the wrappers return instead of raising. *)
Record runtime : Type := mk_runtime {
  cusolver_enabled : bool;
  cast : dtype_char → dtype_char → scalar → scalar;
  potrf_bufferSize : precision → nat → list scalar → nat;
  potrf : precision → nat → list scalar → nat → list scalar * Z
}.

(** A native call writes through the pointer it is given: it cannot
    resize the buffer. *)
Definition overwrite (old new : list scalar) : list scalar :=
  take (length old) (new ++ drop (length new) old).

(** ['{}'.format(z)] for an integer. *)
Definition str (z : Z) : string := NilZero.string_of_int (Z.to_int z).

(** Modelled from the spec: [cupy.empty(size, dtype)], a fresh array of
    one dimension whose cells are not initialised. *)
Definition empty (size : nat) (dt : dtype_char) : M ndarray :=
  p ← alloc (replicate size VUninit);
  emit (EvEmpty p size dt);;
  mret (mk_ndarray dt [size] p).

(** Modelled from the spec: [cupy.ndarray.astype], "copy the input into
    a new working buffer of the resolved precision".
    [a.astype(dtype, copy=True)] is always a new array; the cells are
    copied as they are when the dtype is the same and converted
    otherwise. *)
Definition astype (rt : runtime) (a : ndarray) (dt : dtype_char) : M ndarray :=
  cells ← load (data a);
  p ← alloc (if bool_decide (dt = dtype a) then cells
             else map (cast rt (dtype a) dt) cells);
  emit (EvAstype (data a) p dt);;
  mret (mk_ndarray dt (shape a) p).

(** ** The validators *)

Definition rank (a : ndarray) : nat := length (shape a).

Fixpoint _assertCupyArray (arrays : list pyobj) : M unit :=
  match arrays with
  | [] => mret ()
  | a :: rest =>
      if negb (is_cupy_ndarray a)
      then raise (LinAlgError "cupy.linalg only supports cupy.core.ndarray")
      else _assertCupyArray rest
  end.

Definition rank2_message (r : nat) : string :=
  (str (Z.of_nat r) ++ "-dimensional array given. Array must be two-dimensional")%string.

Fixpoint _assertRank2 (arrays : list pyobj) : M unit :=
  match arrays with
  | [] => mret ()
  | a :: rest =>
      if negb (rank (array_of a) =? 2)%nat
      then raise (LinAlgError (rank2_message (rank (array_of a))))
      else _assertRank2 rest
  end.

(** [s[-2:]] of a tuple. *)
Definition last2 (s : list nat) : list nat := drop (length s - 2) s.

(** The builtins [max] and [min] of a tuple; they raise on an empty one. *)
Definition py_max (s : list nat) : exn + nat :=
  match s with
  | [] => inl (ValueError "max() arg is an empty sequence")
  | x :: r => inr (foldl Nat.max x r)
  end.

Definition py_min (s : list nat) : exn + nat :=
  match s with
  | [] => inl (ValueError "min() arg is an empty sequence")
  | x :: r => inr (foldl Nat.min x r)
  end.

Definition squareness_message : string :=
  "Last 2 dimensions of the array must be square".

Fixpoint _assertNdSquareness (arrays : list pyobj) : M unit :=
  match arrays with
  | [] => mret ()
  | a :: rest =>
      hi ← lift (py_max (last2 (shape (array_of a))));
      lo ← lift (py_min (last2 (shape (array_of a))));
      if negb (hi =? lo)%nat
      then raise (LinAlgError squareness_message)
      else _assertNdSquareness rest
  end.

(** ** The triangular mask *)

(** [cupy.arange(n)] *)
Definition arange (n : nat) : list Z := map Z.of_nat (seq 0 n).

(** [v - u <= k] for the column [u = arange(m).reshape(m, 1)] and the row
    [v = arange(n).reshape(1, n)], broadcast to [m] rows of [n] bools.
    The indices are int64 and far from its bounds: no wrap-around. *)
Definition tril_mask (m n : nat) (k : Z) : list (list bool) :=
  map (λ u, map (λ v, v - u <=? k) (arange n)) (arange m).

Definition unpack2_message (got : nat) : string :=
  if (got <? 2)%nat
  then ("not enough values to unpack (expected 2, got "
        ++ str (Z.of_nat got) ++ ")")%string
  else "too many values to unpack (expected 2)".

(** [_tril(x, k)]: the buffer of [x] is multiplied in place, cell by cell
    in row-major order, by the mask. *)
Definition _tril (x : ndarray) (k : Z) : M ndarray :=
  match shape x with
  | [m; n] =>
      emit (EvArange m);;
      emit (EvArange n);;
      emit EvSubtract;;
      emit EvLessEqual;;
      let mask := tril_mask m n k in
      cells ← load (data x);
      store (data x) (zip_with (imul_mask (dtype x)) cells (concat mask));;
      emit (EvMultiply (data x));;
      mret x
  | s => raise (ValueError (unpack2_message (length s)))
  end.

(** ** The decomposition *)

Definition capability_message : string :=
  "Current cupy only supports cusolver in CUDA 8.0".

Definition not_positive_definite_message (status : Z) : string :=
  ("The leading minor of order " ++ str status
   ++ " is not positive definite")%string.

Definition parameter_error_message : string :=
  "Parameter error (maybe caused by a bug in cupy.linalg?)".

(** One branch of lines 45-58: the buffer-size query, the workspace, and
    the factorization, which works in place on the buffer of [x] and
    writes its status to [devInfo]. *)
Definition run_potrf (rt : runtime) (p : precision) (wdt : dtype_char)
    (n : nat) (x devInfo : ndarray) : M unit :=
  cells ← load (data x);
  let buffersize := potrf_bufferSize rt p n cells in
  emit (EvBufferSize wdt n);;
  workspace ← empty buffersize wdt;
  let '(cells', info) := potrf rt p n cells buffersize in
  store (data x) (overwrite cells cells');;
  store (data devInfo) [VInt info];;
  emit (EvPotrf wdt n (data x) (data workspace) (data devInfo)).

(** [int(devInfo[0])] *)
Definition read_status (devInfo : ndarray) : M Z :=
  cells ← load (data devInfo);
  emit (EvReadback (data devInfo));;
  mret (match cells with VInt z :: _ => z | _ => 0 end).

Definition cholesky (rt : runtime) (a : pyobj) : M ndarray :=
  if negb (cusolver_enabled rt)
  then raise (RuntimeError capability_message)
  else
    _assertCupyArray [a];;
    _assertRank2 [a];;
    _assertNdSquareness [a];;
    let a := array_of a in
    let ret_dtype := dtype a in
    dt ← lift (resolve_dtype ret_dtype);
    x ← astype rt a dt;
    let n := nth 0 (shape a) 0%nat in
    emit EvGetHandle;;
    devInfo ← empty 1 c_i;
    (if bool_decide (dtype x = c_f)
     then run_potrf rt Single c_f n x devInfo
     else run_potrf rt Double c_d n x devInfo);;
    status ← read_status devInfo;
    if status >? 0 then raise (LinAlgError (not_positive_definite_message status))
    else if status <? 0 then raise (LinAlgError parameter_error_message)
    else
      _tril x 0;;
      mret x.

(** The cells of an array in a store. *)
Definition cells_of (s : state) (a : ndarray) : list scalar :=
  default [] (heap s !! data a).

(** What a caller sees of a call: the exception, or the returned array
    by value (its dtype, its shape and its cells). *)
Definition outcome (r : result ndarray * state)
  : exn + dtype_char * list nat * list scalar :=
  match r.1 with
  | Ok x => inr (dtype x, shape x, cells_of r.2 x)
  | Raise e => inl e
  end.

(** What a call can see of its argument. *)
Definition observe (s : state) (o : pyobj)
  : bool * dtype_char * list nat * list scalar :=
  (is_cupy_ndarray o, dtype (array_of o), shape (array_of o), cells_of s (array_of o)).

(** Cell [(u, v)] of a buffer of [n] columns. *)
Definition cell (n : nat) (cells : list scalar) (u v : nat) : option scalar :=
  cells !! (u * n + v)%nat.

(** The buffers an operation writes to. *)
Definition written (ev : event) : list ptr :=
  match ev with
  | EvAstype _ dst _ => [dst]
  | EvEmpty p _ _ => [p]
  | EvPotrf _ _ x workspace devInfo => [x; workspace; devInfo]
  | EvMultiply x => [x]
  | EvGetHandle | EvBufferSize _ _ | EvReadback _ | EvArange _
  | EvSubtract | EvLessEqual => []
  end.

(** The operations a call has added to the log. *)
Definition new_events (before after : state) : list event :=
  drop (length (log before)) (log after).

(** ** Concrete runtimes, stores and arrays for the examples *)

Module Sample.

(** A runtime whose two precisions can be told apart: the single
    precision entry points ask for [n] cells of workspace and report
    status 1, the double precision ones ask for [2 * n] and report 2. *)
Definition two_solvers : runtime :=
  mk_runtime true (λ _ _ x, x)
    (λ p n _, match p with Single => n | Double => (2 * n)%nat end)
    (λ p _ cells _, (cells, match p with Single => 1 | Double => 2 end)).

(** A runtime whose conversion kernel is the identity and whose solver
    leaves the buffer as it is and reports [info]; with [info = 0] this
    is what [potrf] does when the triangle it reads is the identity
    matrix. *)
Definition runtime (enabled : bool) (info : Z) : runtime :=
  mk_runtime enabled (λ _ _ x, x) (λ _ n _, n) (λ _ _ cells _, (cells, info)).

Definition one : scalar := VFloat (SFone 24 128).
Definition zero : scalar := VFloat (S754_zero false).
Definition inf : scalar := VFloat (S754_infinity false).
Definition nan : scalar := VFloat S754_nan.

(** One float32 buffer of six cells at address 0. *)
Definition store6 : state :=
  mk_state {[ 0%nat := [one; zero; zero; zero; one; zero] ]} [].

Definition a23 : ndarray := mk_ndarray c_f [2; 3]%nat 0%nat.
Definition a35 : ndarray := mk_ndarray c_f [3; 5]%nat 0%nat.
Definition a6 : ndarray := mk_ndarray c_f [6]%nat 0%nat.
Definition a123 : ndarray := mk_ndarray c_f [1; 2; 3]%nat 0%nat.

(** The float32 matrix [[1, inf], [0, 1]] at address 0.  The solver is
    called with the upper fill mode on the column-major reading of the
    buffer, so the triangle it reads and writes is the lower one of the
    row-major matrix, here the identity; the cell holding [inf] is not
    referenced. *)
Definition store4 : state :=
  mk_state {[ 0%nat := [one; inf; zero; one] ]} [].

Definition a22 : ndarray := mk_ndarray c_f [2; 2]%nat 0%nat.

(** The same matrix at another address of another store. *)
Definition store4_moved : state :=
  mk_state {[ 3%nat := [one; inf; zero; one]; 0%nat := [zero] ]} [EvGetHandle].

Definition a22_moved : ndarray := mk_ndarray c_f [2; 2]%nat 3%nat.

(** An int32 matrix [[1, 2], [3, 4]] and the float32 matrix
    [[1, 2], [2, 1]], both at address 0 of their store. *)
Definition store_int : state :=
  mk_state {[ 0%nat := [VInt 1; VInt 2; VInt 3; VInt 4] ]} [].

Definition i22 : ndarray := mk_ndarray c_i [2; 2]%nat 0%nat.

Definition two : scalar := VFloat (S754_finite false 8388608 (-22)).

Definition store_finite : state :=
  mk_state {[ 0%nat := [one; two; two; one] ]} [].

(** The float32 matrix [[1, 2], [0, 1]]: the triangle the solver reads
    is the identity again, and the cell above the diagonal is finite. *)
Definition store_unit : state :=
  mk_state {[ 0%nat := [one; two; zero; one] ]} [].

(** The empty matrix, of shape (0, 0). *)
Definition store0 : state := mk_state {[ 0%nat := [] ]} [].

Definition a00 : ndarray := mk_ndarray c_f [0; 0]%nat 0%nat.

(** A batch of two 3x3 matrices and one of 3x2 matrices. *)
Definition a233 : ndarray := mk_ndarray c_f [2; 3; 3]%nat 0%nat.
Definition a232 : ndarray := mk_ndarray c_f [2; 3; 2]%nat 0%nat.
Definition a0d : ndarray := mk_ndarray c_f [] 0%nat.

End Sample.

(** * Properties *)

(** ** The dtype resolver *)

Lemma find_common_type_total (c : dtype_char) :
  is_Some (Numpy.find_common_type [c; c_f] []).
Proof. destruct c; vm_compute; eauto. Qed.

Lemma resolve_dtype_total (c : dtype_char) : ∃ dt, resolve_dtype c = inr dt.
Proof. destruct c; vm_compute; eauto. Qed.

(** C1, at an input the claim fails on.  For a complex64 input the
    resolver returns complex64, which is neither float32 nor float64,
    although the code says "Cast to float32 or float64" of this step and
    "a.dtype.char == 'd'" of the branch such a buffer then takes. *)
Lemma resolve_dtype_complex_counterexample :
  resolve_dtype c_F = inr c_F ∧ kind c_F = KComplex ∧
  ¬ (∀ c, resolve_dtype c = inr c_f ∨ resolve_dtype c = inr c_d).
Proof.
  split; [reflexivity | split; [reflexivity |]].
  intros H. destruct (H c_F) as [E | E]; vm_compute in E; discriminate E.
Qed.

(** The resolver on every type.  It returns float32 and float64 unchanged and
    otherwise numpy's common type of the input type with float32, a type
    both cast safely to.  For bool, the integers and the floats of at most
    64 bits that type is float32 or float64; for longdouble and the
    complex types it is the input type itself. *)
Theorem resolve_dtype_spec (c : dtype_char) :
  resolve_dtype c =
    (if bool_decide (c = c_f ∨ c = c_d) then inr c
     else from_option inr
            (inl (AttributeError "'NoneType' object has no attribute 'char'"))
            (Numpy.find_common_type [c; c_f] []))
  ∧ (∃ dt, resolve_dtype c = inr dt
           ∧ Numpy.can_cast c dt = true ∧ Numpy.can_cast c_f dt = true)
  ∧ (if real_upto_64 c
     then resolve_dtype c = inr c_f ∨ resolve_dtype c = inr c_d
     else resolve_dtype c = inr c).
Proof.
  destruct c; vm_compute;
    (split; [reflexivity | split; [eexists; repeat split | auto]]).
Qed.

(** Integers of 32 bits and more need double precision. *)
Lemma resolve_dtype_table :
  map resolve_dtype [c_bool; c_b; c_B; c_h; c_H; c_e; c_f] = replicate 7 (inr c_f)
  ∧ map resolve_dtype [c_i; c_I; c_l; c_L; c_q; c_Q; c_d] = replicate 7 (inr c_d).
Proof. split; reflexivity. Qed.

(** ** The failure paths that do no device work *)

Section Validation.
Context (rt : runtime) (st : state).

Lemma cholesky_disabled (o : pyobj) :
  cusolver_enabled rt = false →
  cholesky rt o st = (Raise (RuntimeError capability_message), st).
Proof. intros E. unfold cholesky. rewrite E. reflexivity. Qed.

Lemma cholesky_host (a : ndarray) :
  cusolver_enabled rt = true →
  cholesky rt (Host a) st
  = (Raise (LinAlgError "cupy.linalg only supports cupy.core.ndarray"), st).
Proof. intros E. unfold cholesky. rewrite E. reflexivity. Qed.

Lemma cholesky_not_rank2 (a : ndarray) :
  cusolver_enabled rt = true → rank a ≠ 2%nat →
  cholesky rt (Device a) st
  = (Raise (LinAlgError (rank2_message (rank a))), st).
Proof.
  intros E Hr. unfold cholesky. rewrite E.
  cbn [negb _assertCupyArray _assertRank2 is_cupy_ndarray array_of].
  unfold mbind, M_bind, mret, M_ret.
  apply Nat.eqb_neq in Hr. rewrite Hr. reflexivity.
Qed.

Lemma cholesky_not_square (a : ndarray) (m n : nat) :
  cusolver_enabled rt = true → shape a = [m; n] → m ≠ n →
  cholesky rt (Device a) st = (Raise (LinAlgError squareness_message), st).
Proof.
  intros E Hs Hmn. unfold cholesky. rewrite E.
  cbn [negb _assertCupyArray _assertRank2 _assertNdSquareness
       is_cupy_ndarray array_of].
  unfold mbind, M_bind, mret, M_ret, rank. rewrite Hs.
  cbn [length Nat.eqb negb last2 Nat.sub drop py_max py_min lift foldl].
  unfold mret, M_ret.
  assert ((Nat.max m n =? Nat.min m n)%nat = false) as ->
    by (apply Nat.eqb_neq; lia).
  reflexivity.
Qed.

End Validation.

(** ** Formatting *)

Lemma string_length_app (s t : string) :
  String.length (s ++ t)%string = (String.length s + String.length t)%nat.
Proof. induction s as [| c s IH]; simpl; [reflexivity | now rewrite IH]. Qed.

(** Appending the same suffix is injective, and so is prepending the same
    prefix. *)
Lemma string_app_inj_r (t s1 s2 : string) :
  (s1 ++ t = s2 ++ t)%string → s1 = s2.
Proof.
  intros H.
  assert (String.length s1 = String.length s2) as Hlen.
  { apply (f_equal String.length) in H.
    rewrite !string_length_app in H. lia. }
  revert s2 H Hlen. induction s1 as [| c s1 IH]; intros [| c2 s2] H Hlen;
    simpl in *; try discriminate; [reflexivity |].
  injection H as -> H. f_equal. apply IH; [exact H | lia].
Qed.

Lemma string_app_inj_l (t s1 s2 : string) :
  (t ++ s1 = t ++ s2)%string → s1 = s2.
Proof.
  induction t as [| c t IH]; simpl; [auto |].
  intros H. injection H as H. auto.
Qed.

(** The decimal numeral of an integer determines it. *)
Lemma str_inj (z1 z2 : Z) : str z1 = str z2 → z1 = z2.
Proof.
  unfold str. intros H.
  assert (∀ z, NilZero.int_of_string (NilZero.string_of_int (Z.to_int z))
               = Some (Z.to_int z)) as Hparse.
  { intros z. apply NilZero.isi; destruct z; simpl; try discriminate;
      intros [= E]; exact (DecimalPos.Unsigned.to_uint_nonnil _ E). }
  apply (f_equal NilZero.int_of_string) in H.
  rewrite !Hparse in H. injection H as H.
  now apply DecimalZ.to_int_inj.
Qed.

Lemma rank2_message_inj (r1 r2 : nat) :
  rank2_message r1 = rank2_message r2 → r1 = r2.
Proof.
  unfold rank2_message. intros H.
  apply string_app_inj_r, str_inj in H. lia.
Qed.

Lemma not_positive_definite_message_inj (s1 s2 : Z) :
  not_positive_definite_message s1 = not_positive_definite_message s2 → s1 = s2.
Proof.
  unfold not_positive_definite_message. intros H.
  apply string_app_inj_l, string_app_inj_r, str_inj in H. exact H.
Qed.

(** ** Errors raised before any device work *)

(** C7.  When cusolver is not available, every call of [cholesky] raises
    the capability error at once: the store and the log of device
    operations are what they were, so no copy, no buffer-size query and no
    factorization has taken place. *)
Theorem capability_error_first (rt : runtime) (o : pyobj) (st : state) :
  cusolver_enabled rt = false →
  (cholesky rt o st).1 = Raise (RuntimeError capability_message)
  ∧ (cholesky rt o st).2 = st
  ∧ log (cholesky rt o st).2 = log st.
Proof. intros E. rewrite cholesky_disabled by exact E. auto. Qed.

Lemma capability_error_first_witness :
  (cholesky (Sample.runtime false 0) (Device Sample.a22) Sample.store4).1
    = Raise (RuntimeError capability_message)
  ∧ (cholesky (Sample.runtime false 0) (Device Sample.a22) Sample.store4).2
    = Sample.store4
  ∧ log (cholesky (Sample.runtime false 0) (Device Sample.a22) Sample.store4).2
    = log Sample.store4.
Proof.
  apply (capability_error_first (Sample.runtime false 0) (Device Sample.a22)
           Sample.store4).
  reflexivity.
Defined.

(** C10.  The capability check comes before the validators: without
    cusolver the error is the capability error whatever the input is, also
    for an input that is not a cupy array, not of rank 2 or not square, and
    it is never a [LinAlgError]. *)
Theorem capability_check_precedes_validation
    (rt : runtime) (o : pyobj) (st : state) :
  cusolver_enabled rt = false →
  outcome (cholesky rt o st) = inl (RuntimeError capability_message)
  ∧ (∀ msg, (cholesky rt o st).1 ≠ Raise (LinAlgError msg))
  ∧ (∀ a, (cholesky rt (Host a) st).1 = Raise (RuntimeError capability_message))
  ∧ (∀ a, rank a ≠ 2%nat →
          (cholesky rt (Device a) st).1 = Raise (RuntimeError capability_message))
  ∧ (∀ a m n, shape a = [m; n] → m ≠ n →
          (cholesky rt (Device a) st).1 = Raise (RuntimeError capability_message)).
Proof.
  intros E. unfold outcome. rewrite cholesky_disabled by exact E.
  repeat split; try discriminate; intros; now rewrite cholesky_disabled.
Qed.

Lemma capability_check_precedes_validation_witness :
  outcome (cholesky (Sample.runtime false 0) (Host Sample.a23) Sample.store6)
  = inl (RuntimeError capability_message).
Proof.
  apply (capability_check_precedes_validation (Sample.runtime false 0)
           (Host Sample.a23) Sample.store6).
  reflexivity.
Defined.

(** C5, as stated, fails in three ways.  The error of the squareness
    validator is the same for a 2x3 and for a 3x5 array, so it does not
    tell the offending shape; without cusolver the 2x3 array gets the
    capability error; and a 2x3 array that is not a cupy array is rejected
    by the type validator. *)
Lemma squareness_error_counterexample :
  (cholesky (Sample.runtime true 0) (Device Sample.a23) Sample.store6).1
  = (cholesky (Sample.runtime true 0) (Device Sample.a35) Sample.store6).1
  ∧ shape Sample.a23 ≠ shape Sample.a35
  ∧ (cholesky (Sample.runtime false 0) (Device Sample.a23) Sample.store6).1
    = Raise (RuntimeError capability_message)
  ∧ (cholesky (Sample.runtime true 0) (Host Sample.a23) Sample.store6).1
    = Raise (LinAlgError "cupy.linalg only supports cupy.core.ndarray").
Proof. repeat split. discriminate. Qed.

(** C5, amended.  With cusolver enabled, a cupy array of rank 2 whose two
    dimensions differ is rejected by the squareness validator before any
    device work (store and log are untouched); the message names the
    check and is the same for every shape. *)
Theorem non_square_rejected
    (rt : runtime) (st : state) (a : ndarray) (m n : nat) :
  cusolver_enabled rt = true → shape a = [m; n] → m ≠ n →
  (cholesky rt (Device a) st).1
  = Raise (LinAlgError "Last 2 dimensions of the array must be square")
  ∧ (cholesky rt (Device a) st).2 = st
  ∧ log (cholesky rt (Device a) st).2 = log st.
Proof.
  intros E Hs Hmn. rewrite (cholesky_not_square rt st a m n E Hs Hmn). auto.
Qed.

Lemma non_square_rejected_witness :
  (cholesky (Sample.runtime true 0) (Device Sample.a23) Sample.store6).1
  = Raise (LinAlgError "Last 2 dimensions of the array must be square")
  ∧ (cholesky (Sample.runtime true 0) (Device Sample.a23) Sample.store6).2
    = Sample.store6
  ∧ log (cholesky (Sample.runtime true 0) (Device Sample.a23) Sample.store6).2
    = log Sample.store6.
Proof.
  apply (non_square_rejected (Sample.runtime true 0) Sample.store6 Sample.a23
           2%nat 3%nat); [reflexivity | reflexivity | lia].
Defined.

(** C6, as stated, fails without cusolver: a rank-1 cupy array then gets
    the capability error, not a shape error. *)
Lemma rank_error_counterexample :
  rank Sample.a6 = 1%nat
  ∧ (cholesky (Sample.runtime false 0) (Device Sample.a6) Sample.store6).1
    = Raise (RuntimeError "Current cupy only supports cusolver in CUDA 8.0").
Proof. split; reflexivity. Qed.

(** C6, amended.  With cusolver enabled, a cupy array whose rank is not 2
    is rejected by the rank validator before any device work, with a
    message that starts with the rank in decimal: arrays of different
    ranks get different messages. *)
Theorem wrong_rank_rejected (rt : runtime) (st : state) (a : ndarray) :
  cusolver_enabled rt = true → rank a ≠ 2%nat →
  cholesky rt (Device a) st
  = (Raise (LinAlgError
       (str (Z.of_nat (rank a))
        ++ "-dimensional array given. Array must be two-dimensional")%string), st)
  ∧ (∀ b : ndarray, rank b ≠ 2%nat →
       (cholesky rt (Device b) st).1 = (cholesky rt (Device a) st).1 →
       rank b = rank a).
Proof.
  intros E Hr. rewrite (cholesky_not_rank2 rt st a E Hr).
  split; [reflexivity |].
  intros b Hb. rewrite (cholesky_not_rank2 rt st b E Hb). cbn [fst].
  intros [= H]. now apply rank2_message_inj.
Qed.

Lemma wrong_rank_rejected_witness :
  cholesky (Sample.runtime true 0) (Device Sample.a123) Sample.store6
  = (Raise (LinAlgError
       "3-dimensional array given. Array must be two-dimensional"),
     Sample.store6)
  ∧ (∀ b : ndarray, rank b ≠ 2%nat →
       (cholesky (Sample.runtime true 0) (Device b) Sample.store6).1
       = (cholesky (Sample.runtime true 0) (Device Sample.a123) Sample.store6).1 →
       rank b = rank Sample.a123).
Proof.
  apply (wrong_rank_rejected (Sample.runtime true 0) Sample.store6 Sample.a123);
    [reflexivity | discriminate].
Defined.

(** ** The run of a call that passes validation *)

Section Run.
Context (rt : runtime) (st : state) (a : ndarray) (n : nat) (dt : dtype_char).
Hypothesis (E : cusolver_enabled rt = true) (Hs : shape a = [n; n])
           (Hdt : resolve_dtype (dtype a) = inr dt).

(** The final store and log in closed form: [px] is the working buffer,
    [pinfo] the status cell, [pw] the workspace. *)
Lemma cholesky_run :
  let h0 := heap st in
  let xcells := (if bool_decide (dt = dtype a) then cells_of st a
                 else map (cast rt (dtype a) dt) (cells_of st a)) in
  let px := fresh (dom h0) in
  let h1 := <[px := xcells]> h0 in
  let pinfo := fresh (dom h1) in
  let h2 := <[pinfo := replicate 1 VUninit]> h1 in
  let p := if bool_decide (dt = c_f) then Single else Double in
  let wdt := if bool_decide (dt = c_f) then c_f else c_d in
  let bs := potrf_bufferSize rt p n xcells in
  let pw := fresh (dom h2) in
  let h3 := <[pw := replicate bs VUninit]> h2 in
  let out := potrf rt p n xcells bs in
  let fact := overwrite xcells out.1 in
  let h4 := <[pinfo := [VInt out.2]]> (<[px := fact]> h3) in
  let l4 := log st ++ [EvAstype (data a) px dt; EvGetHandle; EvEmpty pinfo 1 c_i;
                       EvBufferSize wdt n; EvEmpty pw bs wdt;
                       EvPotrf wdt n px pw pinfo; EvReadback pinfo] in
  cholesky rt (Device a) st =
    if out.2 >? 0
    then (Raise (LinAlgError (not_positive_definite_message out.2)), mk_state h4 l4)
    else if out.2 <? 0
    then (Raise (LinAlgError parameter_error_message), mk_state h4 l4)
    else (Ok (mk_ndarray dt [n; n] px),
          mk_state (<[px := zip_with (imul_mask dt) fact (concat (tril_mask n n 0))]> h4)
                   (l4 ++ [EvArange n; EvArange n; EvSubtract; EvLessEqual; EvMultiply px])).
Proof.
  intros.
  assert (px ≠ pinfo) as Hxi.
  { intros Heq. apply (is_fresh (dom h1)). fold pinfo. rewrite <- Heq.
    unfold h1. rewrite dom_insert_L. set_solver. }
  assert (h2 !! px = Some xcells) as Hx2.
  { unfold h2. rewrite lookup_insert_ne by auto. apply lookup_insert_eq. }
  assert (h4 !! pinfo = Some [VInt out.2]) as Hi4.
  { unfold h4. apply lookup_insert_eq. }
  assert (h4 !! px = Some fact) as Hx4.
  { unfold h4. rewrite lookup_insert_ne by auto. apply lookup_insert_eq. }
  unfold cholesky. rewrite E.
  cbn [negb _assertCupyArray _assertRank2 _assertNdSquareness
       is_cupy_ndarray array_of].
  unfold mbind, M_bind, mret, M_ret, rank. rewrite Hs.
  cbn [length Nat.eqb negb last2 Nat.sub drop py_max py_min lift foldl].
  unfold mret, M_ret.
  rewrite Nat.max_id, Nat.min_id, Nat.eqb_refl. cbn [negb].
  rewrite Hdt.
  unfold astype, run_potrf, read_status, _tril, empty, load, alloc, store,
    emit, lift, raise.
  unfold mbind, M_bind, mret, M_ret.
  cbn [heap log dtype shape data nth].
  unfold cells_of in *.
  subst l4 h4 fact out h3 pw bs wdt p h2 pinfo h1 px xcells h0.
  destruct (bool_decide (dt = c_f));
    cbn [heap log dtype shape data nth];
    rewrite Hx2; cbn [default from_option id];
    destruct (potrf _ _ _ _ _) as [cells' info];
    cbn [heap log dtype shape data nth fst snd] in *;
    rewrite Hi4; cbn [default from_option id];
    (destruct (info >? 0); [rewrite <- !app_assoc; reflexivity |]);
    (destruct (info <? 0); [rewrite <- !app_assoc; reflexivity |]);
    rewrite Hs; cbn [heap log]; rewrite Hx4; cbn [default from_option id];
    rewrite <- !app_assoc; reflexivity.
Qed.

End Run.

(** ** The triangular mask *)

Lemma lookup_concat_rows {A} (rows : list (list A)) (n u v : nat) :
  Forall (λ r, length r = n) rows → (v < n)%nat →
  concat rows !! (u * n + v)%nat = rows !! u ≫= (λ r, r !! v).
Proof.
  intros Hrows Hv. revert u.
  induction Hrows as [| r rows Hr _ IH]; intros u; [now destruct u |].
  destruct u as [| u]; simpl.
  - apply lookup_app_l. lia.
  - rewrite <- IH. rewrite lookup_app_r by lia. f_equal. lia.
Qed.

Lemma arange_lookup (n i : nat) :
  (i < n)%nat → arange n !! i = Some (Z.of_nat i).
Proof.
  intros Hi. unfold arange. rewrite list_lookup_fmap.
  rewrite lookup_seq_lt by exact Hi. reflexivity.
Qed.

(** The mask holds [v - u <= k] at row [u], column [v]. *)
Lemma tril_mask_lookup (m n : nat) (k : Z) (u v : nat) :
  (u < m)%nat → (v < n)%nat →
  concat (tril_mask m n k) !! (u * n + v)%nat
  = Some (Z.of_nat v - Z.of_nat u <=? k).
Proof.
  intros Hu Hv. rewrite lookup_concat_rows by
    (first [ exact Hv
           | unfold tril_mask; apply Forall_fmap, Forall_forall; intros; simpl;
             unfold arange; now rewrite !length_map, length_seq ]).
  unfold tril_mask. rewrite list_lookup_fmap, arange_lookup by exact Hu.
  simpl. rewrite list_lookup_fmap, arange_lookup by exact Hv. reflexivity.
Qed.

Lemma tril_run (x : ndarray) (k : Z) (m n : nat) (s : state) :
  shape x = [m; n] →
  _tril x k s
  = (Ok x,
     mk_state (<[data x := zip_with (imul_mask (dtype x)) (cells_of s x)
                             (concat (tril_mask m n k))]> (heap s))
              (log s ++ [EvArange m; EvArange n; EvSubtract; EvLessEqual;
                        EvMultiply (data x)])).
Proof.
  intros Hs. unfold _tril. rewrite Hs.
  unfold load, store, emit, mbind, M_bind, mret, M_ret, cells_of.
  cbn [heap log]. rewrite <- !app_assoc. reflexivity.
Qed.

(** What [_tril] does to a cell: it multiplies it by the bit of the mask. *)
Lemma tril_cell (x : ndarray) (k : Z) (m n : nat) (s : state) (u v : nat) :
  shape x = [m; n] → (u < m)%nat → (v < n)%nat →
  cell n (cells_of (_tril x k s).2 x) u v
  = (λ e, imul_mask (dtype x) e (Z.of_nat v - Z.of_nat u <=? k))
      <$> cell n (cells_of s x) u v.
Proof.
  intros Hs Hu Hv. rewrite (tril_run x k m n s Hs).
  unfold cell, cells_of at 1. cbn [snd heap].
  rewrite lookup_insert_eq. cbn [default from_option id].
  rewrite lookup_zip_with, (tril_mask_lookup m n k u v Hu Hv).
  now destruct (cells_of s x !! _).
Qed.

(** Multiplying by [False] gives a zero, of either sign, from a finite
    number, and NaN from an infinity or a NaN. *)
Lemma imul_mask_false_finite (c : dtype_char) (e : scalar) :
  is_finite e = true → is_zero (imul_mask c e false) = true.
Proof.
  destruct e as [z | [sg | sg | | sg mant ex] |]; simpl; try discriminate;
    intros _; try reflexivity.
  apply Z.eqb_eq. lia.
Qed.

Lemma imul_mask_false_not_finite (c : dtype_char) (f : spec_float) :
  is_finite (VFloat f) = false → imul_mask c (VFloat f) false = VFloat S754_nan.
Proof. destruct f; simpl; try discriminate; reflexivity. Qed.

Lemma imul_mask_true_int (c : dtype_char) (z : Z) :
  imul_mask c (VInt z) true = VInt z.
Proof. simpl. f_equal. lia. Qed.

(** ** Multiplying by one is exact *)

Lemma mul_shl_one (m : positive) (k : nat) : (m * shl 1 k)%positive = shl m k.
Proof.
  induction k as [| k IH]; simpl; [apply Pos.mul_1_r |].
  now rewrite Pos.mul_xO_r, IH.
Qed.

Lemma digits2_pos_shl (m : positive) (k : nat) :
  Zpos (digits2_pos (shl m k)) = Zpos (digits2_pos m) + Z.of_nat k.
Proof.
  induction k as [| k IH]; [simpl; lia |].
  cbn [shl digits2_pos]. rewrite Pos2Z.inj_succ, IH. lia.
Qed.

Lemma iter_pos_nat {A} (f : A → A) (p : positive) (x : A) :
  SpecFloat.iter_pos f p x = Nat.iter (Pos.to_nat p) f x.
Proof.
  revert x. induction p as [p IH | p IH |]; intros x; cbn [SpecFloat.iter_pos].
  - rewrite !IH, Pos2Nat.inj_xI, <- Nat.iter_add, <- Nat.iter_succ_r.
    f_equal. lia.
  - rewrite !IH, Pos2Nat.inj_xO, <- Nat.iter_add. f_equal. lia.
  - reflexivity.
Qed.

Lemma shr_1_shl (m : positive) (k : nat) :
  Nat.iter k shr_1 {| shr_m := Zpos (shl m k); shr_r := false; shr_s := false |}
  = {| shr_m := Zpos m; shr_r := false; shr_s := false |}.
Proof.
  induction k as [| k IH]; [reflexivity |].
  rewrite Nat.iter_succ_r. exact IH.
Qed.

Lemma SFmul_one (pr em : Z) (k : nat) (f : spec_float) :
  SFone pr em = S754_finite false (shl 1 k) (- Z.of_nat k) →
  valid_binary pr em f = true →
  SFmul pr em f (SFone pr em) = f.
Proof.
  intros Hone. rewrite Hone.
  destruct f as [[] | [] | | sg m e]; try (intros _; reflexivity).
  unfold valid_binary, bounded, canonical_mantissa.
  intros H. apply andb_true_iff in H as [Hc He].
  apply Z.eqb_eq in Hc.
  unfold SFmul. rewrite xorb_false_r, mul_shl_one.
  unfold binary_round_aux, shr_fexp, Zdigits2.
  rewrite digits2_pos_shl.
  replace (Zpos (digits2_pos m) + Z.of_nat k + (e + - Z.of_nat k))
    with (Zpos (digits2_pos m) + e) by lia.
  rewrite Hc.
  replace (e - (e + - Z.of_nat k)) with (Z.of_nat k) by lia.
  assert (shr (shr_record_of_loc (Zpos (shl m k)) loc_Exact) (e + - Z.of_nat k)
            (Z.of_nat k)
          = ({| shr_m := Zpos m; shr_r := false; shr_s := false |}, e)) as ->.
  { destruct k as [| k];
      [replace (e + - Z.of_nat 0) with e by (simpl; lia); reflexivity |].
    cbn [shr_record_of_loc].
    change (Z.of_nat (S k)) with (Zpos (Pos.of_succ_nat k)). unfold shr.
    rewrite iter_pos_nat, SuccNat2Pos.id_succ, shr_1_shl. f_equal. lia. }
  cbn [loc_of_shr_record shr_m shr_r shr_s round_nearest_even
       shr_record_of_loc].
  rewrite Hc, Z.sub_diag. cbn [shr shr_m]. now rewrite He.
Qed.

Lemma SFone_shl (c : dtype_char) :
  SFone (prec c) (emax c)
  = S754_finite false (shl 1 (Z.to_nat (prec c - 1)))
      (- Z.of_nat (Z.to_nat (prec c - 1))).
Proof. destruct c; reflexivity. Qed.

(** Multiplying by [True] changes nothing. *)
Lemma imul_mask_true (c : dtype_char) (e : scalar) :
  valid_scalar c e = true → imul_mask c e true = e.
Proof.
  destruct e as [z | f |]; simpl; intros H; [f_equal; lia | | reflexivity].
  f_equal. exact (SFmul_one _ _ _ f (SFone_shl c) H).
Qed.

(** X8.  A cell of the buffer with [v - u <= k] that is a number of the
    buffer's dtype is left by [_tril] exactly as it was. *)
Lemma tril_keeps (x : ndarray) (k : Z) (m n : nat) (s : state) (u v : nat) (e : scalar) :
  shape x = [m; n] → (u < m)%nat → (v < n)%nat →
  Z.of_nat v - Z.of_nat u <= k →
  cell n (cells_of s x) u v = Some e → valid_scalar (dtype x) e = true →
  cell n (cells_of (_tril x k s).2 x) u v = Some e.
Proof.
  intros Hs Hu Hv Hk He Hval. rewrite (tril_cell x k m n s u v Hs Hu Hv), He.
  simpl. apply Z.leb_le in Hk. rewrite Hk. f_equal. now apply imul_mask_true.
Qed.

(** X9.  A cell with [v - u > k] becomes a zero (of either sign) when it
    was finite, and a NaN when it was an infinity or a NaN. *)
Lemma tril_masks (x : ndarray) (k : Z) (m n : nat) (s : state) (u v : nat) (e : scalar) :
  shape x = [m; n] → (u < m)%nat → (v < n)%nat →
  Z.of_nat v - Z.of_nat u > k →
  cell n (cells_of s x) u v = Some e →
  ∃ e', cell n (cells_of (_tril x k s).2 x) u v = Some e'
        ∧ (is_finite e = true → is_zero e' = true)
        ∧ (is_finite e = false → e ≠ VUninit → is_nan e' = true).
Proof.
  intros Hs Hu Hv Hk He. rewrite (tril_cell x k m n s u v Hs Hu Hv), He.
  simpl. assert ((Z.of_nat v - Z.of_nat u <=? k) = false) as ->
    by (apply Z.leb_gt; lia).
  eexists. split; [reflexivity |]. split.
  - apply imul_mask_false_finite.
  - intros Hnf Hun. destruct e as [z | f |]; try discriminate; [| contradiction].
    now rewrite imul_mask_false_not_finite.
Qed.

(** ** Freshness *)

Lemma fresh_ne_live {V} (h : gmap ptr V) (q : ptr) :
  is_Some (h !! q) → q ≠ fresh (dom h).
Proof. intros Hq ->. apply (is_fresh (dom h)), elem_of_dom, Hq. Qed.

Lemma new_events_app (st : state) (h : gmap ptr (list scalar)) (l : list event) :
  new_events st (mk_state h (log st ++ l)) = l.
Proof. unfold new_events. cbn [log]. apply drop_app_length. Qed.

Lemma new_events_same (st : state) : new_events st st = [].
Proof. unfold new_events. apply drop_all. Qed.

(** A shape of rank 2 is a pair. *)
Lemma rank2_shape (a : ndarray) :
  rank a = 2%nat → ∃ m n, shape a = [m; n].
Proof.
  unfold rank. destruct (shape a) as [| m [| n [| ? ?]]]; try discriminate.
  eauto.
Qed.

(** Every call either fails in validation, leaving the state as it is,
    or runs the solver on a square array. *)
Lemma cholesky_cases (rt : runtime) (o : pyobj) (st : state) :
  (∃ e, cholesky rt o st = (Raise e, st))
  ∨ (∃ a n, o = Device a ∧ cusolver_enabled rt = true ∧ shape a = [n; n]).
Proof.
  destruct (cusolver_enabled rt) eqn:E; [| left; eexists; now apply cholesky_disabled].
  destruct o as [a | a]; [| left; eexists; now apply cholesky_host].
  destruct (decide (rank a = 2%nat)) as [Hr | Hr];
    [| left; eexists; now apply cholesky_not_rank2].
  destruct (rank2_shape a Hr) as (m & n & Hs).
  destruct (decide (m = n)) as [-> | Hmn];
    [right; eauto | left; eexists; now apply (cholesky_not_square rt st a m n)].
Qed.

(** The store of a call agrees with the store before it on every buffer
    that was live, and everything written is a buffer that was not. *)
Lemma cholesky_frame (rt : runtime) (o : pyobj) (st : state) (p : ptr) :
  is_Some (heap st !! p) →
  heap (cholesky rt o st).2 !! p = heap st !! p
  ∧ (∀ ev, ev ∈ new_events st (cholesky rt o st).2 → p ∉ written ev).
Proof.
  intros Hp.
  destruct (cholesky_cases rt o st) as [[e ->] | (a & n & -> & E & Hs)].
  { cbn [snd]. rewrite new_events_same. split; [reflexivity |]. intros ev H.
    inversion H. }
  destruct (resolve_dtype_total (dtype a)) as [dt Hdt].
  pose proof (cholesky_run rt st a n dt E Hs Hdt) as Hrun. cbv zeta in Hrun.
  set (xcells := if bool_decide (dt = dtype a) then cells_of st a
                 else map (cast rt (dtype a) dt) (cells_of st a)) in *.
  set (px := fresh (dom (heap st))) in *.
  set (h1 := <[px := xcells]> (heap st)) in *.
  set (pinfo := fresh (dom h1)) in *.
  set (h2 := <[pinfo := replicate 1 VUninit]> h1) in *.
  set (pw := fresh (dom h2)) in *.
  assert (p ≠ px) as H0 by now apply fresh_ne_live.
  assert (is_Some (h1 !! p)) as Hp1 by (unfold h1; rewrite lookup_insert_ne; auto).
  assert (p ≠ pinfo) as H1 by now apply fresh_ne_live.
  assert (is_Some (h2 !! p)) as Hp2 by (unfold h2; rewrite lookup_insert_ne; auto).
  assert (p ≠ pw) as H2 by now apply fresh_ne_live.
  rewrite Hrun.
  repeat match goal with |- context [if ?b then _ else _] => destruct b end;
    cbn [snd heap]; rewrite <- ?app_assoc, new_events_app;
    (split;
     [ unfold h2, h1; rewrite !lookup_insert_ne by auto; reflexivity
     | intros ev Hev;
       repeat (apply elem_of_cons in Hev as [-> | Hev]);
       try (by apply elem_of_nil in Hev); cbn [written];
       rewrite ?not_elem_of_cons; repeat split; auto using not_elem_of_nil ]).
Qed.

Section RunOutcome.
Context (rt : runtime) (st : state) (a : ndarray) (n : nat) (dt : dtype_char).
Hypothesis (E : cusolver_enabled rt = true) (Hs : shape a = [n; n])
           (Hdt : resolve_dtype (dtype a) = inr dt).

(** What the caller sees depends on the runtime and on the dtype, the
    order and the cells of the input, not on addresses. *)
Lemma cholesky_run_outcome :
  let xcells := (if bool_decide (dt = dtype a) then cells_of st a
                 else map (cast rt (dtype a) dt) (cells_of st a)) in
  let p := if bool_decide (dt = c_f) then Single else Double in
  let out := potrf rt p n xcells (potrf_bufferSize rt p n xcells) in
  outcome (cholesky rt (Device a) st) =
    if out.2 >? 0 then inl (LinAlgError (not_positive_definite_message out.2))
    else if out.2 <? 0 then inl (LinAlgError parameter_error_message)
    else inr (dt, [n; n],
              zip_with (imul_mask dt) (overwrite xcells out.1)
                (concat (tril_mask n n 0))).
Proof.
  intros. pose proof (cholesky_run rt st a n dt E Hs Hdt) as Hrun.
  cbv zeta in Hrun. rewrite Hrun. fold xcells p out.
  destruct (out.2 >? 0); [reflexivity |].
  destruct (out.2 <? 0); [reflexivity |].
  unfold outcome, cells_of. cbn [fst snd heap dtype shape data].
  now rewrite lookup_insert_eq.
Qed.

End RunOutcome.

(** ** The input is not mutated *)

(** C8.  [cholesky] does not mutate its argument: on every path, success
    or failure, the buffer of the input holds after the call what it held
    before, and every operation of the call (the copy, the factorization,
    the mask) writes to buffers allocated during the call.  The dtype and
    the shape of an array are fields nothing assigns to. *)
Theorem input_not_mutated (rt : runtime) (o : pyobj) (st : state) :
  is_Some (heap st !! data (array_of o)) →
  heap (cholesky rt o st).2 !! data (array_of o) = heap st !! data (array_of o)
  ∧ cells_of (cholesky rt o st).2 (array_of o) = cells_of st (array_of o)
  ∧ (∀ ev, ev ∈ new_events st (cholesky rt o st).2 →
           data (array_of o) ∉ written ev).
Proof.
  intros Hlive.
  destruct (cholesky_frame rt o st (data (array_of o)) Hlive) as [Hsame Hfresh].
  split; [exact Hsame | split; [| exact Hfresh]].
  unfold cells_of. now rewrite Hsame.
Qed.

Lemma input_not_mutated_witness :
  heap (cholesky (Sample.runtime true 0) (Device Sample.a22) Sample.store4).2
    !! data Sample.a22
  = Some [Sample.one; Sample.inf; Sample.zero; Sample.one]
  ∧ heap (cholesky (Sample.runtime true 1) (Device Sample.a22) Sample.store4).2
      !! data Sample.a22
    = heap Sample.store4 !! data Sample.a22.
Proof.
  split.
  - apply (proj1 (input_not_mutated (Sample.runtime true 0) (Device Sample.a22)
                    Sample.store4 (mk_is_Some _ _ eq_refl))).
  - apply (proj1 (input_not_mutated (Sample.runtime true 1) (Device Sample.a22)
                    Sample.store4 (mk_is_Some _ _ eq_refl))).
Defined.

(** ** Determinism *)

(** C9.  Two calls under the same runtime on arguments that are equal by
    value (same kind of object, dtype, shape and cells), wherever the
    buffers lie and whatever else the two stores hold, give the same
    exception or arrays equal by value. *)
Theorem cholesky_deterministic
    (rt : runtime) (o1 o2 : pyobj) (st1 st2 : state) :
  observe st1 o1 = observe st2 o2 →
  outcome (cholesky rt o1 st1) = outcome (cholesky rt o2 st2).
Proof.
  unfold observe. intros [= Hk Hd Hsh Hc].
  destruct (cusolver_enabled rt) eqn:E;
    [| now rewrite !cholesky_disabled by exact E].
  destruct o1 as [a1 | a1], o2 as [a2 | a2]; try discriminate Hk;
    [| now rewrite !cholesky_host by exact E].
  cbn [array_of] in *.
  assert (rank a1 = rank a2) as Hr by (unfold rank; now rewrite Hsh).
  destruct (decide (rank a1 = 2%nat)) as [Hr2 | Hr2].
  2: { rewrite !cholesky_not_rank2 by congruence. unfold outcome. cbn [fst].
       now rewrite Hr. }
  destruct (rank2_shape a1 Hr2) as (m & n & Hs1).
  assert (shape a2 = [m; n]) as Hs2 by congruence.
  destruct (decide (m = n)) as [-> | Hmn].
  2: { now rewrite (cholesky_not_square rt st1 a1 m n E Hs1 Hmn),
         (cholesky_not_square rt st2 a2 m n E Hs2 Hmn). }
  destruct (resolve_dtype_total (dtype a1)) as [dt Hdt1].
  assert (resolve_dtype (dtype a2) = inr dt) as Hdt2 by congruence.
  pose proof (cholesky_run_outcome rt st1 a1 n dt E Hs1 Hdt1) as H1.
  pose proof (cholesky_run_outcome rt st2 a2 n dt E Hs2 Hdt2) as H2.
  cbv zeta in H1, H2. rewrite H1, H2, Hd, Hc. reflexivity.
Qed.

Lemma cholesky_deterministic_witness :
  outcome (cholesky (Sample.runtime true 0) (Device Sample.a22) Sample.store4)
  = outcome (cholesky (Sample.runtime true 0) (Device Sample.a22_moved)
               Sample.store4_moved).
Proof.
  apply (cholesky_deterministic (Sample.runtime true 0) (Device Sample.a22)
           (Device Sample.a22_moved) Sample.store4 Sample.store4_moved).
  reflexivity.
Defined.

(** ** What a call that passes validation leaves behind *)

Section RunFacts.
Context (rt : runtime) (st : state) (a : ndarray) (n : nat) (dt : dtype_char).
Hypothesis (E : cusolver_enabled rt = true) (Hs : shape a = [n; n])
           (Hdt : resolve_dtype (dtype a) = inr dt).

(** The result, the new operations and the three buffers of the call, in
    terms of what the solver entry points of the dispatched precision
    return on the converted copy of the input. *)
Lemma cholesky_run_facts :
  let xcells := (if bool_decide (dt = dtype a) then cells_of st a
                 else map (cast rt (dtype a) dt) (cells_of st a)) in
  let p := if bool_decide (dt = c_f) then Single else Double in
  let wdt := if bool_decide (dt = c_f) then c_f else c_d in
  let bs := potrf_bufferSize rt p n xcells in
  let out := potrf rt p n xcells bs in
  let failed := (out.2 >? 0) || (out.2 <? 0) in
  ∃ x w i : ptr,
    (cholesky rt (Device a) st).1
    = (if out.2 >? 0
       then Raise (LinAlgError (not_positive_definite_message out.2))
       else if out.2 <? 0 then Raise (LinAlgError parameter_error_message)
       else Ok (mk_ndarray dt [n; n] x))
    ∧ new_events st (cholesky rt (Device a) st).2
      = [EvAstype (data a) x dt; EvGetHandle; EvEmpty i 1 c_i;
         EvBufferSize wdt n; EvEmpty w bs wdt; EvPotrf wdt n x w i;
         EvReadback i]
        ++ (if failed then []
            else [EvArange n; EvArange n; EvSubtract; EvLessEqual; EvMultiply x])
    ∧ heap (cholesky rt (Device a) st).2 !! i = Some [VInt out.2]
    ∧ heap (cholesky rt (Device a) st).2 !! w = Some (replicate bs VUninit)
    ∧ heap (cholesky rt (Device a) st).2 !! x
      = Some (if failed then overwrite xcells out.1
              else zip_with (imul_mask dt) (overwrite xcells out.1)
                     (concat (tril_mask n n 0))).
Proof.
  intros. pose proof (cholesky_run rt st a n dt E Hs Hdt) as Hrun.
  cbv zeta in Hrun. fold xcells p wdt bs out in Hrun.
  set (px := fresh (dom (heap st))) in *.
  set (h1 := <[px := xcells]> (heap st)) in *.
  set (pinfo := fresh (dom h1)) in *.
  set (h2 := <[pinfo := replicate 1 VUninit]> h1) in *.
  set (pw := fresh (dom h2)) in *.
  assert (px ≠ pinfo) as Hxi.
  { apply fresh_ne_live. unfold h1. rewrite lookup_insert_eq. eauto. }
  assert (px ≠ pw) as Hxw.
  { apply fresh_ne_live. unfold h2, h1.
    rewrite lookup_insert_ne, lookup_insert_eq by auto. eauto. }
  assert (pinfo ≠ pw) as Hiw.
  { apply fresh_ne_live. unfold h2. rewrite lookup_insert_eq. eauto. }
  exists px, pw, pinfo. rewrite Hrun. subst failed.
  destruct (out.2 >? 0); [| destruct (out.2 <? 0)];
    cbn [fst snd heap orb]; rewrite <- ?app_assoc, new_events_app;
    (split; [reflexivity |]); (split; [reflexivity |]);
    repeat split;
    repeat first [ rewrite lookup_insert_eq | rewrite lookup_insert_ne by auto ];
    reflexivity.
Qed.

End RunFacts.

(** ** The status of the solver *)

(** C4.  With cusolver enabled and a square cupy array, the call copies
    the input, queries the workspace size, runs the solver once and reads
    the status the solver left in [devInfo]: the status is the one the
    entry point of the dispatched precision returns on the converted copy.
    A positive status raises the error that names the leading minor of
    that order, a negative one the parameter error, both without any
    further device operation and with the buffer as the solver left it;
    status 0 goes on to the mask, which multiplies the buffer the solver
    worked on, and returns that buffer. *)
Theorem status_classification
    (rt : runtime) (st : state) (a : ndarray) (n : nat) :
  cusolver_enabled rt = true → shape a = [n; n] →
  ∃ dt : dtype_char,
    resolve_dtype (dtype a) = inr dt
    ∧ let xcells := (if bool_decide (dt = dtype a) then cells_of st a
                     else map (cast rt (dtype a) dt) (cells_of st a)) in
      let p := if bool_decide (dt = c_f) then Single else Double in
      let wdt := if bool_decide (dt = c_f) then c_f else c_d in
      let bs := potrf_bufferSize rt p n xcells in
      let out := potrf rt p n xcells bs in
      let status := out.2 in
      ∃ x work info : ptr,
        take 7 (new_events st (cholesky rt (Device a) st).2)
        = [EvAstype (data a) x dt; EvGetHandle; EvEmpty info 1 c_i;
           EvBufferSize wdt n; EvEmpty work bs wdt;
           EvPotrf wdt n x work info; EvReadback info]
        ∧ heap (cholesky rt (Device a) st).2 !! info = Some [VInt status]
        ∧ (status > 0 →
           (cholesky rt (Device a) st).1
           = Raise (LinAlgError ("The leading minor of order " ++ str status
                                 ++ " is not positive definite")%string)
           ∧ drop 7 (new_events st (cholesky rt (Device a) st).2) = []
           ∧ heap (cholesky rt (Device a) st).2 !! x
             = Some (overwrite xcells out.1))
        ∧ (status < 0 →
           (cholesky rt (Device a) st).1
           = Raise (LinAlgError
                      "Parameter error (maybe caused by a bug in cupy.linalg?)")
           ∧ drop 7 (new_events st (cholesky rt (Device a) st).2) = []
           ∧ heap (cholesky rt (Device a) st).2 !! x
             = Some (overwrite xcells out.1))
        ∧ (status = 0 →
           (cholesky rt (Device a) st).1 = Ok (mk_ndarray dt [n; n] x)
           ∧ drop 7 (new_events st (cholesky rt (Device a) st).2)
             = [EvArange n; EvArange n; EvSubtract; EvLessEqual; EvMultiply x]
           ∧ heap (cholesky rt (Device a) st).2 !! x
             = Some (zip_with (imul_mask dt) (overwrite xcells out.1)
                       (concat (tril_mask n n 0)))).
Proof.
  intros E Hs.
  destruct (resolve_dtype_total (dtype a)) as [dt Hdt].
  exists dt. split; [exact Hdt |]. intros xcells p wdt bs out status.
  destruct (cholesky_run_facts rt st a n dt E Hs Hdt)
    as (x & w & i & Hres & Hev & Hi & _ & Hx).
  cbv zeta in Hres, Hev, Hi, Hx. fold xcells p wdt bs out in Hres, Hev, Hi, Hx.
  exists x, w, i. rewrite Hev, Hres, Hx. fold status.
  split; [reflexivity |]. split; [exact Hi |].
  split; [| split]; intros Hst.
  - assert ((status >? 0) = true) as -> by lia. cbn [orb]. auto.
  - assert ((status >? 0) = false) as -> by lia.
    assert ((status <? 0) = true) as -> by lia. cbn [orb]. auto.
  - assert ((status >? 0) = false) as -> by lia.
    assert ((status <? 0) = false) as -> by lia. cbn [orb]. auto.
Qed.

Lemma status_classification_witness :
  ∃ dt : dtype_char,
    resolve_dtype (dtype Sample.a22) = inr dt
    ∧ let xcells := (if bool_decide (dt = dtype Sample.a22)
                     then cells_of Sample.store4 Sample.a22
                     else map (cast (Sample.runtime true 2) (dtype Sample.a22) dt)
                            (cells_of Sample.store4 Sample.a22)) in
      let p := if bool_decide (dt = c_f) then Single else Double in
      let wdt := if bool_decide (dt = c_f) then c_f else c_d in
      let bs := potrf_bufferSize (Sample.runtime true 2) p 2 xcells in
      let out := potrf (Sample.runtime true 2) p 2 xcells bs in
      let status := out.2 in
      ∃ x work info : ptr,
        take 7 (new_events Sample.store4
                  (cholesky (Sample.runtime true 2) (Device Sample.a22)
                     Sample.store4).2)
        = [EvAstype (data Sample.a22) x dt; EvGetHandle; EvEmpty info 1 c_i;
           EvBufferSize wdt 2; EvEmpty work bs wdt;
           EvPotrf wdt 2 x work info; EvReadback info]
        ∧ heap (cholesky (Sample.runtime true 2) (Device Sample.a22)
                  Sample.store4).2 !! info = Some [VInt status]
        ∧ (status > 0 →
           (cholesky (Sample.runtime true 2) (Device Sample.a22) Sample.store4).1
           = Raise (LinAlgError ("The leading minor of order " ++ str status
                                 ++ " is not positive definite")%string)
           ∧ drop 7 (new_events Sample.store4
                       (cholesky (Sample.runtime true 2) (Device Sample.a22)
                          Sample.store4).2) = []
           ∧ heap (cholesky (Sample.runtime true 2) (Device Sample.a22)
                     Sample.store4).2 !! x
             = Some (overwrite xcells out.1))
        ∧ (status < 0 →
           (cholesky (Sample.runtime true 2) (Device Sample.a22) Sample.store4).1
           = Raise (LinAlgError
                      "Parameter error (maybe caused by a bug in cupy.linalg?)")
           ∧ drop 7 (new_events Sample.store4
                       (cholesky (Sample.runtime true 2) (Device Sample.a22)
                          Sample.store4).2) = []
           ∧ heap (cholesky (Sample.runtime true 2) (Device Sample.a22)
                     Sample.store4).2 !! x
             = Some (overwrite xcells out.1))
        ∧ (status = 0 →
           (cholesky (Sample.runtime true 2) (Device Sample.a22) Sample.store4).1
           = Ok (mk_ndarray dt [2; 2]%nat x)
           ∧ drop 7 (new_events Sample.store4
                       (cholesky (Sample.runtime true 2) (Device Sample.a22)
                          Sample.store4).2)
             = [EvArange 2; EvArange 2; EvSubtract; EvLessEqual; EvMultiply x]
           ∧ heap (cholesky (Sample.runtime true 2) (Device Sample.a22)
                     Sample.store4).2 !! x
             = Some (zip_with (imul_mask dt) (overwrite xcells out.1)
                       (concat (tril_mask 2 2 0)))).
Proof.
  apply (status_classification (Sample.runtime true 2) Sample.store4 Sample.a22
           2%nat); reflexivity.
Defined.

(** The three outcomes on concrete statuses. *)
Lemma status_examples :
  (cholesky (Sample.runtime true 2) (Device Sample.a22) Sample.store4).1
  = Raise (LinAlgError "The leading minor of order 2 is not positive definite")
  ∧ (cholesky (Sample.runtime true (-1)) (Device Sample.a22) Sample.store4).1
    = Raise (LinAlgError "Parameter error (maybe caused by a bug in cupy.linalg?)")
  ∧ (cholesky (Sample.runtime true 0) (Device Sample.a22) Sample.store4).1
    = Ok (mk_ndarray c_f [2; 2]%nat 1%nat).
Proof. repeat split; vm_compute; reflexivity. Qed.

(** ** The returned factor *)

(** X14.  On success the result has the shape of the input and the
    resolved dtype, and each cell above the diagonal is the product by
    [False] of the cell the solver left at that place of the working
    buffer: a zero when that cell is finite. *)
Lemma cholesky_success
    (rt : runtime) (st s' : state) (a x : ndarray) (n : nat) :
  cusolver_enabled rt = true → shape a = [n; n] →
  cholesky rt (Device a) st = (Ok x, s') →
  shape x = shape a
  ∧ resolve_dtype (dtype a) = inr (dtype x)
  ∧ let xcells := (if bool_decide (dtype x = dtype a) then cells_of st a
                   else map (cast rt (dtype a) (dtype x)) (cells_of st a)) in
    let p := if bool_decide (dtype x = c_f) then Single else Double in
    let out := potrf rt p n xcells (potrf_bufferSize rt p n xcells) in
    ∀ u v, (u < v < n)%nat →
      cell n (cells_of s' x) u v
      = (λ e, imul_mask (dtype x) e false)
          <$> cell n (overwrite xcells out.1) u v
      ∧ (∀ e, cell n (overwrite xcells out.1) u v = Some e →
              is_finite e = true →
              ∃ e', cell n (cells_of s' x) u v = Some e' ∧ is_zero e' = true).
Proof.
  intros E Hs Hrun.
  destruct (resolve_dtype_total (dtype a)) as [dt Hdt].
  pose proof (cholesky_run rt st a n dt E Hs Hdt) as H. cbv zeta in H.
  rewrite H in Hrun. clear H.
  repeat match type of Hrun with
         | (if ?b then _ else _) = _ => destruct b; try discriminate Hrun
         end.
  injection Hrun as <- <-. cbn [shape dtype].
  split; [now rewrite Hs | split; [exact Hdt |]].
  cbv zeta. intros u v [Huv Hv].
  match goal with |- ?A ∧ _ => assert A as Hcell end.
  { unfold cell, cells_of. cbn [heap data].
    rewrite lookup_insert_eq. cbn [default from_option id].
    rewrite lookup_zip_with, (tril_mask_lookup n n 0 u v) by lia.
    assert ((Z.of_nat v - Z.of_nat u <=? 0) = false) as ->
      by (apply Z.leb_gt; lia).
    now destruct (overwrite _ _ !! _). }
  split; [exact Hcell |].
  intros e He Hfin. rewrite Hcell, He. cbn.
  eexists. split; [reflexivity | now apply imul_mask_false_finite].
Qed.

(** Whatever the solver is: where it reports success and leaves an
    infinity or a NaN above the diagonal (LAPACK's [potrf] does not
    reference that triangle, so it leaves what the input had there), the
    result holds a NaN. *)
Lemma cholesky_nonfinite_above_diagonal
    (rt : runtime) (st s' : state) (a x : ndarray) (n u v : nat)
    (f : spec_float) :
  cusolver_enabled rt = true → shape a = [n; n] →
  cholesky rt (Device a) st = (Ok x, s') →
  (u < v < n)%nat →
  (let xcells := (if bool_decide (dtype x = dtype a) then cells_of st a
                  else map (cast rt (dtype a) (dtype x)) (cells_of st a)) in
   let p := if bool_decide (dtype x = c_f) then Single else Double in
   let out := potrf rt p n xcells (potrf_bufferSize rt p n xcells) in
   cell n (overwrite xcells out.1) u v = Some (VFloat f)) →
  is_finite (VFloat f) = false →
  cell n (cells_of s' x) u v = Some (VFloat S754_nan).
Proof.
  intros E Hs Hrun [Huv Hv] Hleft Hnf.
  destruct (resolve_dtype_total (dtype a)) as [dt Hdt].
  pose proof (cholesky_run rt st a n dt E Hs Hdt) as H. cbv zeta in H.
  rewrite H in Hrun. clear H.
  repeat match type of Hrun with
         | (if ?b then _ else _) = _ => destruct b; try discriminate Hrun
         end.
  injection Hrun as <- <-. cbn [dtype] in Hleft. cbv zeta in Hleft.
  unfold cell in *. unfold cells_of at 1. cbn [heap data].
  rewrite lookup_insert_eq. cbn [default from_option id].
  rewrite lookup_zip_with, Hleft, (tril_mask_lookup n n 0 u v) by lia.
  assert ((Z.of_nat v - Z.of_nat u <=? 0) = false) as ->
    by (apply Z.leb_gt; lia).
  cbn [mbind option_bind]. f_equal. now apply imul_mask_false_not_finite.
Qed.

(** C2, at an input the claim fails on.  The float32 matrix
    [[1, inf], [0, 1]] is accepted with status 0 (the triangle the solver
    reads is the identity) and the result is [[1, nan], [0, 1]]: shape and
    dtype are those of the claim, but the cell above the diagonal is the
    product of infinity and 0.0, a NaN, not zero. *)
Lemma cholesky_result_not_lower_triangular :
  outcome (cholesky (Sample.runtime true 0) (Device Sample.a22) Sample.store4)
  = inr (c_f, [2; 2]%nat, [Sample.one; Sample.nan; Sample.zero; Sample.one])
  ∧ cell 2 [Sample.one; Sample.nan; Sample.zero; Sample.one] 0 1 = Some Sample.nan
  ∧ is_zero Sample.nan = false.
Proof. repeat split; vm_compute; reflexivity. Qed.

(** C3, at an input the claim fails on.  [_tril] with [k = 0] on the
    float32 buffer [[1, inf], [0, 1]], the buffer [cholesky] hands it for
    that matrix: the cell at row 0, column 1 has [v - u = 1 > 0], it is
    multiplied by 0.0 and holds a NaN afterwards, not zero. *)
Lemma tril_infinity_not_zeroed :
  (_tril Sample.a22 0 Sample.store4).1 = Ok Sample.a22
  ∧ cells_of (_tril Sample.a22 0 Sample.store4).2 Sample.a22
    = [Sample.one; Sample.nan; Sample.zero; Sample.one]
  ∧ cell 2 (cells_of (_tril Sample.a22 0 Sample.store4).2 Sample.a22) 0 1
    = Some Sample.nan
  ∧ is_zero Sample.nan = false.
Proof. repeat split; vm_compute; reflexivity. Qed.

(** * Further properties of the validators *)

(** X1.  [_assertCupyArray] accepts its arguments exactly when every one
    of them is a cupy array, and it never touches the state. *)
Theorem assertCupyArray_all (arrays : list pyobj) (st : state) :
  _assertCupyArray arrays st
  = (if forallb is_cupy_ndarray arrays then Ok ()
     else Raise (LinAlgError "cupy.linalg only supports cupy.core.ndarray"),
     st).
Proof.
  induction arrays as [| o rest IH]; [reflexivity |].
  cbn [_assertCupyArray forallb]. destruct (is_cupy_ndarray o); [exact IH |].
  reflexivity.
Qed.

(** X2.  [_assertRank2] accepts its arguments exactly when all have rank
    2; otherwise the error carries the rank of the first argument whose
    rank is not 2, whatever comes after it. *)
Theorem assertRank2_first_offender (arrays : list pyobj) (st : state) :
  _assertRank2 arrays st
  = (match List.find (λ o, negb (rank (array_of o) =? 2)%nat) arrays with
     | None => Ok ()
     | Some o => Raise (LinAlgError (rank2_message (rank (array_of o))))
     end, st).
Proof.
  induction arrays as [| o rest IH]; [reflexivity |].
  cbn [_assertRank2 List.find].
  destruct (negb (rank (array_of o) =? 2)%nat); [reflexivity | exact IH].
Qed.

Lemma last2_app (pre : list nat) (m n : nat) : last2 (pre ++ [m; n]) = [m; n].
Proof.
  unfold last2. rewrite length_app. cbn [length].
  replace (length pre + 2 - 2)%nat with (length pre) by lia.
  now rewrite drop_app_length.
Qed.

(** X3.  [_assertNdSquareness] looks at the last two dimensions only: an
    array of any rank from 2 on, whatever its leading dimensions, passes
    exactly when its last two dimensions are equal. *)
Theorem assertNdSquareness_last_two
    (o : pyobj) (pre : list nat) (m n : nat) (st : state) :
  shape (array_of o) = pre ++ [m; n] →
  _assertNdSquareness [o] st
  = (if bool_decide (m = n) then Ok ()
     else Raise (LinAlgError "Last 2 dimensions of the array must be square"),
     st).
Proof.
  intros Hs. cbn [_assertNdSquareness]. rewrite Hs, last2_app.
  cbn [py_max py_min lift foldl]. unfold mbind, M_bind, mret, M_ret, raise.
  case_bool_decide as Hmn.
  - subst. now rewrite Nat.max_id, Nat.min_id, Nat.eqb_refl.
  - assert ((Nat.max m n =? Nat.min m n)%nat = false) as ->
      by (apply Nat.eqb_neq; lia).
    reflexivity.
Qed.

Lemma assertNdSquareness_last_two_witness :
  _assertNdSquareness [Device Sample.a233] Sample.store6 = (Ok (), Sample.store6)
  ∧ _assertNdSquareness [Device Sample.a232] Sample.store6
    = (Raise (LinAlgError "Last 2 dimensions of the array must be square"),
       Sample.store6).
Proof.
  split.
  - apply (assertNdSquareness_last_two (Device Sample.a233) [2%nat] 3 3
             Sample.store6). reflexivity.
  - apply (assertNdSquareness_last_two (Device Sample.a232) [2%nat] 3 2
             Sample.store6). reflexivity.
Defined.

(** X4.  On its own, [_assertNdSquareness] lets every array of rank 1
    through (the maximum and the minimum of its one dimension agree), and
    on an array of rank 0 it does not raise a [LinAlgError]: [max] of the
    empty shape raises a [ValueError]. *)
Theorem assertNdSquareness_low_rank (o : pyobj) (st : state) :
  (rank (array_of o) < 2)%nat →
  ∃ msg,
    _assertNdSquareness [o] st
    = (if (rank (array_of o) =? 1)%nat then Ok ()
       else Raise (ValueError msg), st).
Proof.
  unfold rank. intros Hr. cbn [_assertNdSquareness].
  destruct (shape (array_of o)) as [| n [| ? ?]]; cbn [length] in *;
    [eexists; reflexivity | | lia].
  exists "". cbn. unfold mbind, M_bind, mret, M_ret. now rewrite Nat.eqb_refl.
Qed.

Lemma assertNdSquareness_low_rank_witness :
  ∃ msg,
    _assertNdSquareness [Device Sample.a0d] Sample.store6
    = (if (rank (array_of (Device Sample.a0d)) =? 1)%nat then Ok ()
       else Raise (ValueError msg), Sample.store6).
Proof.
  apply (assertNdSquareness_low_rank (Device Sample.a0d) Sample.store6).
  cbn. lia.
Defined.

(** X5.  The order of the checks in [cholesky]: with cusolver enabled, an
    input that is not a square cupy matrix is rejected without any device
    work, with the type error if it is not a cupy array (whatever its
    shape), else with the rank error if its rank is not 2 (whatever its
    dimensions), else with the squareness error. *)
Theorem validation_precedence (rt : runtime) (o : pyobj) (st : state) :
  cusolver_enabled rt = true →
  ¬ (is_cupy_ndarray o = true ∧ ∃ n, shape (array_of o) = [n; n]) →
  cholesky rt o st
  = (Raise (LinAlgError
       (if negb (is_cupy_ndarray o)
        then "cupy.linalg only supports cupy.core.ndarray"
        else if negb (rank (array_of o) =? 2)%nat
        then (str (Z.of_nat (rank (array_of o)))
              ++ "-dimensional array given. Array must be two-dimensional")%string
        else "Last 2 dimensions of the array must be square")), st).
Proof.
  intros E Hbad. destruct o as [a | a]; cbn [is_cupy_ndarray array_of negb].
  2: { now apply cholesky_host. }
  destruct (decide (rank a = 2%nat)) as [Hr | Hr].
  - rewrite Hr. cbn [Nat.eqb negb].
    destruct (rank2_shape a Hr) as (m & n & Hs).
    apply (cholesky_not_square rt st a m n E Hs).
    intros ->. apply Hbad. split; [reflexivity | eauto].
  - rewrite (cholesky_not_rank2 rt st a E Hr).
    apply Nat.eqb_neq in Hr. now rewrite Hr.
Qed.

Lemma validation_precedence_witness :
  cholesky (Sample.runtime true 0) (Host Sample.a123) Sample.store6
  = (Raise (LinAlgError "cupy.linalg only supports cupy.core.ndarray"),
     Sample.store6)
  ∧ cholesky (Sample.runtime true 0) (Device Sample.a232) Sample.store6
    = (Raise (LinAlgError
                "3-dimensional array given. Array must be two-dimensional"),
       Sample.store6).
Proof.
  split.
  - apply (validation_precedence (Sample.runtime true 0) (Host Sample.a123)
             Sample.store6); [reflexivity |].
    intros [H _]. discriminate H.
  - apply (validation_precedence (Sample.runtime true 0) (Device Sample.a232)
             Sample.store6); [reflexivity |].
    intros [_ [n H]]. discriminate H.
Defined.

(** X6.  Device work happens exactly for the inputs that pass every check:
    a call adds operations to the log if and only if cusolver is enabled
    and the input is a square cupy matrix. *)
Theorem device_work_iff_accepted (rt : runtime) (o : pyobj) (st : state) :
  new_events st (cholesky rt o st).2 ≠ []
  ↔ cusolver_enabled rt = true ∧ is_cupy_ndarray o = true
    ∧ ∃ n, shape (array_of o) = [n; n].
Proof.
  split.
  - intros Hev.
    destruct (cholesky_cases rt o st) as [[e He] | (a & n & -> & E & Hs)].
    + rewrite He in Hev. cbn [snd] in Hev. now rewrite new_events_same in Hev.
    + cbn. eauto.
  - intros (E & Hc & n & Hs). destruct o as [a | a]; [| discriminate Hc].
    cbn [array_of] in Hs.
    destruct (resolve_dtype_total (dtype a)) as [dt Hdt].
    pose proof (cholesky_run rt st a n dt E Hs Hdt) as Hrun. cbv zeta in Hrun.
    rewrite Hrun.
    repeat match goal with |- context [if ?b then _ else _] => destruct b end;
      cbn [snd]; rewrite <- ?app_assoc, new_events_app; discriminate.
Qed.

(** * Further properties of the triangular mask *)

Lemma length_concat_rows {A} (rows : list (list A)) (n : nat) :
  Forall (λ r, length r = n) rows → length (concat rows) = (length rows * n)%nat.
Proof.
  induction 1 as [| r rows Hr _ IH]; [reflexivity |].
  cbn [concat length]. rewrite length_app, IH, Hr. lia.
Qed.

Lemma tril_mask_rows (m n : nat) (k : Z) :
  Forall (λ r, length r = n) (tril_mask m n k).
Proof.
  unfold tril_mask. apply Forall_fmap, Forall_forall. intros; simpl.
  unfold arange. now rewrite !length_map, length_seq.
Qed.

Lemma length_tril_mask (m n : nat) (k : Z) :
  length (concat (tril_mask m n k)) = (m * n)%nat.
Proof.
  rewrite (length_concat_rows _ n) by apply tril_mask_rows.
  unfold tril_mask, arange. now rewrite !length_map, length_seq.
Qed.

(** X7.  [_tril] needs a buffer of rank 2: on any other rank the
    unpacking of the shape raises a [ValueError] and nothing is written
    or logged. *)
Theorem tril_wrong_rank (x : ndarray) (k : Z) (st : state) :
  rank x ≠ 2%nat →
  ∃ msg, _tril x k st = (Raise (ValueError msg), st).
Proof.
  unfold rank, _tril. intros Hr.
  destruct (shape x) as [| m [| n [| ? ?]]]; cbn [length] in Hr;
    try (eexists; reflexivity).
  now destruct Hr.
Qed.

Lemma tril_wrong_rank_witness :
  ∃ msg, _tril Sample.a123 0 Sample.store6 = (Raise (ValueError msg), Sample.store6).
Proof.
  apply (tril_wrong_rank Sample.a123 0 Sample.store6). discriminate.
Defined.

(** X10.  [_tril] works in place and on its buffer only: it returns the
    array it was given, the buffer keeps its [m * n] cells, and every
    other buffer of the store is what it was. *)
Theorem tril_in_place (x : ndarray) (k : Z) (m n : nat) (st : state) :
  shape x = [m; n] → length (cells_of st x) = (m * n)%nat →
  (_tril x k st).1 = Ok x
  ∧ length (cells_of (_tril x k st).2 x) = (m * n)%nat
  ∧ (∀ p, p ≠ data x → heap (_tril x k st).2 !! p = heap st !! p).
Proof.
  intros Hs Hlen. rewrite (tril_run x k m n st Hs). cbn [fst snd].
  split; [reflexivity | split].
  - unfold cells_of at 1. cbn [heap]. rewrite lookup_insert_eq.
    cbn [default from_option id].
    rewrite length_zip_with, Hlen, length_tril_mask. lia.
  - intros p Hp. cbn [heap]. now rewrite lookup_insert_ne.
Qed.

Lemma tril_in_place_witness :
  (_tril Sample.i22 0 Sample.store_int).1 = Ok Sample.i22
  ∧ length (cells_of (_tril Sample.i22 0 Sample.store_int).2 Sample.i22)
    = (2 * 2)%nat
  ∧ (∀ p, p ≠ data Sample.i22 →
          heap (_tril Sample.i22 0 Sample.store_int).2 !! p
          = heap Sample.store_int !! p).
Proof.
  apply (tril_in_place Sample.i22 0 2 2 Sample.store_int); reflexivity.
Defined.

(** X12.  On a buffer of integers the mask is exact: a cell with
    [v - u <= k] keeps its value and a cell with [v - u > k] becomes 0. *)
Theorem tril_integer_cell
    (x : ndarray) (k : Z) (m n : nat) (st : state) (u v : nat) (z : Z) :
  shape x = [m; n] → (u < m)%nat → (v < n)%nat →
  cell n (cells_of st x) u v = Some (VInt z) →
  cell n (cells_of (_tril x k st).2 x) u v
  = Some (VInt (if Z.of_nat v - Z.of_nat u <=? k then z else 0)).
Proof.
  intros Hs Hu Hv Hc. rewrite (tril_cell x k m n st u v Hs Hu Hv), Hc.
  cbn. f_equal. f_equal. destruct (_ <=? _); cbn; lia.
Qed.

Lemma tril_integer_cell_witness :
  cell 2 (cells_of (_tril Sample.i22 0 Sample.store_int).2 Sample.i22) 0 1
  = Some (VInt 0)
  ∧ cell 2 (cells_of (_tril Sample.i22 0 Sample.store_int).2 Sample.i22) 1 0
    = Some (VInt 3).
Proof.
  split.
  - apply (tril_integer_cell Sample.i22 0 2 2 Sample.store_int 0 1 2);
      [reflexivity | lia | lia | reflexivity].
  - apply (tril_integer_cell Sample.i22 0 2 2 Sample.store_int 1 0 3);
      [reflexivity | lia | lia | reflexivity].
Defined.

Lemma imul_mask_idem (c : dtype_char) (e : scalar) (b : bool) :
  valid_scalar c e = true →
  imul_mask c (imul_mask c e b) b = imul_mask c e b.
Proof.
  intros Hv. destruct b.
  - rewrite (imul_mask_true c e Hv). exact (imul_mask_true c e Hv).
  - destruct e as [z | [[] | [] | | [] mant ex] |]; cbn; try reflexivity.
    f_equal. lia.
Qed.

Lemma zip_with_idem {A B} (f : A → B → A) (P : A → Prop) (l : list A) (k : list B) :
  (∀ e b, P e → f (f e b) b = f e b) → Forall P l →
  zip_with f (zip_with f l k) k = zip_with f l k.
Proof.
  intros Hf Hl. revert k. induction Hl as [| e l He _ IH]; intros [| b k];
    cbn; try reflexivity.
  now rewrite Hf, IH.
Qed.

(** X11.  [_tril] is idempotent: on a buffer whose cells are numbers of
    its dtype, masking a second time with the same [k] leaves the store as
    the first masking left it. *)
Theorem tril_idempotent (x : ndarray) (k : Z) (m n : nat) (st : state) :
  shape x = [m; n] →
  Forall (λ e, valid_scalar (dtype x) e = true) (cells_of st x) →
  heap (_tril x k (_tril x k st).2).2 = heap (_tril x k st).2.
Proof.
  intros Hs Hval. rewrite !(tril_run x k m n _ Hs). cbn [snd heap].
  unfold cells_of at 1. cbn [heap]. rewrite lookup_insert_eq.
  cbn [default from_option id]. rewrite insert_insert_eq. f_equal.
  apply (zip_with_idem _ (λ e, valid_scalar (dtype x) e = true));
    [| exact Hval].
  intros e b. apply imul_mask_idem.
Qed.

Lemma tril_idempotent_witness :
  heap (_tril Sample.a22 0 (_tril Sample.a22 0 Sample.store4).2).2
  = heap (_tril Sample.a22 0 Sample.store4).2.
Proof.
  apply (tril_idempotent Sample.a22 0 2 2 Sample.store4); [reflexivity |].
  repeat constructor.
Defined.

Lemma tril_mask_all_true (m n : nat) (k : Z) :
  Z.of_nat n - 1 <= k → Forall (λ b, b = true) (concat (tril_mask m n k)).
Proof.
  intros Hk. apply Forall_concat. unfold tril_mask, arange.
  rewrite !Forall_fmap. apply Forall_forall. intros u _. cbn.
  rewrite !Forall_fmap. apply Forall_forall. intros v Hv. cbn.
  apply elem_of_seq in Hv. apply Z.leb_le. lia.
Qed.

Lemma zip_with_all_true {A} (f : A → bool → A) (P : A → Prop)
    (l : list A) (k : list bool) :
  (∀ e, P e → f e true = e) → Forall P l → Forall (λ b, b = true) k →
  (length l ≤ length k)%nat → zip_with f l k = l.
Proof.
  intros Hf Hl. revert k. induction Hl as [| e l He _ IH]; intros k Hk Hlen;
    [reflexivity |].
  destruct Hk as [| b k -> Hk]; cbn in *; [lia |].
  rewrite Hf by exact He. f_equal. apply IH; [exact Hk | lia].
Qed.

(** X13.  With [k >= n - 1] the mask keeps every cell: [_tril] leaves a
    buffer whose cells are numbers of its dtype exactly as it was. *)
Theorem tril_large_offset (x : ndarray) (k : Z) (m n : nat) (st : state) :
  shape x = [m; n] → Z.of_nat n - 1 <= k →
  length (cells_of st x) = (m * n)%nat →
  Forall (λ e, valid_scalar (dtype x) e = true) (cells_of st x) →
  cells_of (_tril x k st).2 x = cells_of st x.
Proof.
  intros Hs Hk Hlen Hval. rewrite (tril_run x k m n st Hs).
  unfold cells_of at 1. cbn [snd heap]. rewrite lookup_insert_eq.
  cbn [default from_option id].
  apply (zip_with_all_true _ (λ e, valid_scalar (dtype x) e = true));
    [apply imul_mask_true | exact Hval | now apply tril_mask_all_true |].
  rewrite length_tril_mask. lia.
Qed.

Lemma tril_large_offset_witness :
  cells_of (_tril Sample.a22 1 Sample.store4).2 Sample.a22
  = cells_of Sample.store4 Sample.a22.
Proof.
  apply (tril_large_offset Sample.a22 1 2 2 Sample.store4);
    [reflexivity | lia | reflexivity | repeat constructor].
Defined.

Lemma tril_keeps_witness :
  cell 2 (cells_of (_tril Sample.a22 0 Sample.store_finite).2 Sample.a22) 1 0
  = Some Sample.two.
Proof.
  apply (tril_keeps Sample.a22 0 2 2 Sample.store_finite 1 0 Sample.two);
    [reflexivity | lia | lia | lia | reflexivity | reflexivity].
Defined.

Lemma tril_masks_witness :
  ∃ e', cell 2 (cells_of (_tril Sample.a22 0 Sample.store_finite).2 Sample.a22) 0 1
        = Some e'
        ∧ (is_finite Sample.two = true → is_zero e' = true)
        ∧ (is_finite Sample.two = false → Sample.two ≠ VUninit → is_nan e' = true).
Proof.
  apply (tril_masks Sample.a22 0 2 2 Sample.store_finite 0 1 Sample.two);
    [reflexivity | lia | lia | lia | reflexivity].
Defined.

(** * Further properties of the decomposition *)

Lemma cholesky_success_witness :
  shape (mk_ndarray c_f [2; 2]%nat 1%nat) = shape Sample.a22
  ∧ resolve_dtype (dtype Sample.a22) = inr (dtype (mk_ndarray c_f [2; 2]%nat 1%nat))
  ∧ let xcells :=
      (if bool_decide (dtype (mk_ndarray c_f [2; 2]%nat 1%nat) = dtype Sample.a22)
       then cells_of Sample.store_unit Sample.a22
       else map (cast (Sample.runtime true 0) (dtype Sample.a22)
                   (dtype (mk_ndarray c_f [2; 2]%nat 1%nat)))
              (cells_of Sample.store_unit Sample.a22)) in
    let p := if bool_decide (dtype (mk_ndarray c_f [2; 2]%nat 1%nat) = c_f)
             then Single else Double in
    let out := potrf (Sample.runtime true 0) p 2 xcells
                 (potrf_bufferSize (Sample.runtime true 0) p 2 xcells) in
    ∀ u v, (u < v < 2)%nat →
      cell 2 (cells_of (cholesky (Sample.runtime true 0) (Device Sample.a22)
                          Sample.store_unit).2
                (mk_ndarray c_f [2; 2]%nat 1%nat)) u v
      = (λ e, imul_mask (dtype (mk_ndarray c_f [2; 2]%nat 1%nat)) e false)
          <$> cell 2 (overwrite xcells out.1) u v
      ∧ (∀ e, cell 2 (overwrite xcells out.1) u v = Some e →
              is_finite e = true →
              ∃ e', cell 2 (cells_of (cholesky (Sample.runtime true 0)
                                        (Device Sample.a22) Sample.store_unit).2
                              (mk_ndarray c_f [2; 2]%nat 1%nat)) u v = Some e'
                    ∧ is_zero e' = true).
Proof.
  apply (cholesky_success (Sample.runtime true 0) Sample.store_unit
           (cholesky (Sample.runtime true 0) (Device Sample.a22)
              Sample.store_unit).2
           Sample.a22 (mk_ndarray c_f [2; 2]%nat 1%nat) 2);
    [reflexivity | reflexivity | vm_compute; reflexivity].
Defined.

(** X15.  On success the cells on and below the diagonal are those the
    solver left in the working buffer: the mask multiplies them by 1.0,
    which changes no number of the buffer's dtype. *)
Theorem cholesky_lower_triangle_kept
    (rt : runtime) (st s' : state) (a x : ndarray) (n u v : nat) (e : scalar) :
  cusolver_enabled rt = true → shape a = [n; n] →
  cholesky rt (Device a) st = (Ok x, s') →
  (v ≤ u < n)%nat →
  (let xcells := (if bool_decide (dtype x = dtype a) then cells_of st a
                  else map (cast rt (dtype a) (dtype x)) (cells_of st a)) in
   let p := if bool_decide (dtype x = c_f) then Single else Double in
   let out := potrf rt p n xcells (potrf_bufferSize rt p n xcells) in
   cell n (overwrite xcells out.1) u v = Some e) →
  valid_scalar (dtype x) e = true →
  cell n (cells_of s' x) u v = Some e.
Proof.
  intros E Hs Hrun [Hvu Hu] Hleft Hval.
  destruct (resolve_dtype_total (dtype a)) as [dt Hdt].
  pose proof (cholesky_run rt st a n dt E Hs Hdt) as H. cbv zeta in H.
  rewrite H in Hrun. clear H.
  repeat match type of Hrun with
         | (if ?b then _ else _) = _ => destruct b; try discriminate Hrun
         end.
  injection Hrun as <- <-. cbn [dtype] in Hleft, Hval. cbv zeta in Hleft.
  unfold cell in *. unfold cells_of at 1. cbn [heap data].
  rewrite lookup_insert_eq. cbn [default from_option id].
  rewrite lookup_zip_with, Hleft, (tril_mask_lookup n n 0 u v) by lia.
  assert ((Z.of_nat v - Z.of_nat u <=? 0) = true) as ->
    by (apply Z.leb_le; lia).
  cbn [mbind option_bind]. f_equal. now apply imul_mask_true.
Qed.

Lemma cholesky_lower_triangle_kept_witness :
  cell 2 (cells_of (cholesky (Sample.runtime true 0) (Device Sample.a22)
                      Sample.store_finite).2
            (mk_ndarray c_f [2; 2]%nat 1%nat)) 1 0 = Some Sample.two.
Proof.
  apply (cholesky_lower_triangle_kept (Sample.runtime true 0) Sample.store_finite
           (cholesky (Sample.runtime true 0) (Device Sample.a22)
              Sample.store_finite).2
           Sample.a22 (mk_ndarray c_f [2; 2]%nat 1%nat) 2 1 0 Sample.two);
    [reflexivity | reflexivity | vm_compute; reflexivity | lia
    | reflexivity | reflexivity].
Defined.

(** X16.  The array [cholesky] returns never shares its buffer with
    anything that existed before the call, also when the input already
    has the resolved dtype: its buffer was not live before and is live
    after. *)
Theorem result_is_fresh
    (rt : runtime) (o : pyobj) (st s' : state) (x : ndarray) :
  cholesky rt o st = (Ok x, s') →
  heap st !! data x = None ∧ is_Some (heap s' !! data x).
Proof.
  intros Hrun.
  destruct (cholesky_cases rt o st) as [[e He] | (a & n & -> & E & Hs)];
    [rewrite He in Hrun; discriminate Hrun |].
  destruct (resolve_dtype_total (dtype a)) as [dt Hdt].
  pose proof (cholesky_run rt st a n dt E Hs Hdt) as H. cbv zeta in H.
  rewrite H in Hrun. clear H.
  repeat match type of Hrun with
         | (if ?b then _ else _) = _ => destruct b; try discriminate Hrun
         end.
  injection Hrun as <- <-. cbn [data heap]. split.
  - apply not_elem_of_dom, is_fresh.
  - rewrite lookup_insert_eq. eauto.
Qed.

Lemma result_is_fresh_witness :
  heap Sample.store4 !! data (mk_ndarray c_f [2; 2]%nat 1%nat) = None
  ∧ is_Some (heap (cholesky (Sample.runtime true 0) (Device Sample.a22)
                     Sample.store4).2
             !! data (mk_ndarray c_f [2; 2]%nat 1%nat)).
Proof.
  apply (result_is_fresh (Sample.runtime true 0) (Device Sample.a22)
           Sample.store4 _ (mk_ndarray c_f [2; 2]%nat 1%nat)).
  vm_compute. reflexivity.
Defined.

(** X17.  A call leaves every buffer that was live before it as it was,
    whichever array it belongs to, and frees none of them. *)
Theorem live_buffers_untouched
    (rt : runtime) (o : pyobj) (st : state) (p : ptr) (cells : list scalar) :
  heap st !! p = Some cells →
  heap (cholesky rt o st).2 !! p = Some cells.
Proof.
  intros Hp. rewrite <- Hp.
  apply (cholesky_frame rt o st p). rewrite Hp. eauto.
Qed.

Lemma live_buffers_untouched_witness :
  heap (cholesky (Sample.runtime true 1) (Device Sample.a22_moved)
          Sample.store4_moved).2 !! 0%nat = Some [Sample.zero].
Proof.
  apply (live_buffers_untouched (Sample.runtime true 1) (Device Sample.a22_moved)
           Sample.store4_moved 0%nat [Sample.zero]).
  reflexivity.
Defined.

(** X18.  The empty matrix is not special-cased: a cupy array of shape
    (0, 0) passes the checks and the solver is called with order 0; when
    it reports status 0 the result is an empty array of shape (0, 0) of
    the resolved dtype. *)
Theorem cholesky_empty_matrix (rt : runtime) (st : state) (a : ndarray) :
  cusolver_enabled rt = true → shape a = [0; 0]%nat → cells_of st a = [] →
  (∀ p bs, (potrf rt p 0 [] bs).2 = 0) →
  ∃ dt, resolve_dtype (dtype a) = inr dt
        ∧ outcome (cholesky rt (Device a) st) = inr (dt, [0; 0]%nat, [])
        ∧ ∃ wdt x w i,
            EvPotrf wdt 0 x w i ∈ new_events st (cholesky rt (Device a) st).2.
Proof.
  intros E Hs Hc Hok.
  destruct (resolve_dtype_total (dtype a)) as [dt Hdt].
  exists dt. split; [exact Hdt |].
  pose proof (cholesky_run_outcome rt st a 0 dt E Hs Hdt) as Hout.
  pose proof (cholesky_run rt st a 0 dt E Hs Hdt) as Hrun.
  cbv zeta in Hout, Hrun. rewrite Hc in Hout, Hrun.
  assert ((if bool_decide (dt = dtype a) then []
           else map (cast rt (dtype a) dt) []) = @nil scalar) as Hx
    by (destruct (bool_decide (dt = dtype a)); reflexivity).
  rewrite Hx in Hout, Hrun. rewrite Hok in Hout, Hrun.
  cbn [Z.gtb Z.ltb Z.compare] in Hout, Hrun. split; [exact Hout |].
  rewrite Hrun. cbn [snd]. rewrite <- app_assoc, new_events_app.
  do 4 eexists.
  repeat (apply elem_of_cons; first [left; reflexivity | right]).
Qed.

Lemma cholesky_empty_matrix_witness :
  ∃ dt, resolve_dtype (dtype Sample.a00) = inr dt
        ∧ outcome (cholesky (Sample.runtime true 0) (Device Sample.a00) Sample.store0)
          = inr (dt, [0; 0]%nat, [])
        ∧ ∃ wdt x w i,
            EvPotrf wdt 0 x w i
            ∈ new_events Sample.store0
                (cholesky (Sample.runtime true 0) (Device Sample.a00) Sample.store0).2.
Proof.
  apply (cholesky_empty_matrix (Sample.runtime true 0) Sample.store0 Sample.a00);
    reflexivity.
Defined.

(** X19.  Which precision the solver works in: among the real types of
    at most 64 bits, the working type is float32 exactly for the types of
    at most 16 bits and float32 itself, and float64 for all others, the
    32- and 64-bit integers included. *)
Theorem resolved_precision (c : dtype_char) :
  real_upto_64 c = true →
  resolve_dtype c
  = inr (if (bits c <=? 16) || bool_decide (c = c_f) then c_f else c_d).
Proof. destruct c; intros H; try discriminate H; reflexivity. Qed.

Lemma resolved_precision_witness :
  resolve_dtype c_i = inr c_d ∧ resolve_dtype c_h = inr c_f.
Proof.
  split.
  - apply (resolved_precision c_i). reflexivity.
  - apply (resolved_precision c_h). reflexivity.
Defined.

(** X20.  The resolved dtype is a fixed point of the resolver: an array
    [cholesky] returns, handed to [cholesky] again, is worked on in its
    own dtype. *)
Theorem resolve_dtype_idempotent (c dt : dtype_char) :
  resolve_dtype c = inr dt → resolve_dtype dt = inr dt.
Proof. destruct c; intros [= <-]; reflexivity. Qed.

Lemma resolve_dtype_idempotent_witness : resolve_dtype c_d = inr c_d.
Proof. apply (resolve_dtype_idempotent c_q c_d). reflexivity. Defined.

(** X22.  The dispatch of lines 45-58: a call that passes the checks runs
    the solver once, on the order of the input and on the converted copy,
    and what it uses are the entry points of single precision exactly when
    the resolved dtype is float32 and those of double precision for every
    other resolved dtype: the workspace has the size that precision's
    query returns, the status cell holds the status that precision's
    factorization returns, and on failure the working buffer holds the
    cells it returns. *)
Theorem solver_dispatch (rt : runtime) (st : state) (a : ndarray) (n : nat) :
  cusolver_enabled rt = true → shape a = [n; n] →
  ∃ dt : dtype_char,
    resolve_dtype (dtype a) = inr dt
    ∧ let xcells := (if bool_decide (dt = dtype a) then cells_of st a
                     else map (cast rt (dtype a) dt) (cells_of st a)) in
      let p := if bool_decide (dt = c_f) then Single else Double in
      let bs := potrf_bufferSize rt p n xcells in
      let out := potrf rt p n xcells bs in
      ∃ x w i : ptr,
        List.filter (λ ev, match ev with EvPotrf _ _ _ _ _ => true | _ => false end)
          (new_events st (cholesky rt (Device a) st).2)
        = [EvPotrf (if bool_decide (dt = c_f) then c_f else c_d) n x w i]
        ∧ heap (cholesky rt (Device a) st).2 !! w = Some (replicate bs VUninit)
        ∧ heap (cholesky rt (Device a) st).2 !! i = Some [VInt out.2]
        ∧ (out.2 ≠ 0 →
           heap (cholesky rt (Device a) st).2 !! x
           = Some (overwrite xcells out.1)).
Proof.
  intros E Hs.
  destruct (resolve_dtype_total (dtype a)) as [dt Hdt].
  exists dt. split; [exact Hdt |]. intros xcells p bs out.
  destruct (cholesky_run_facts rt st a n dt E Hs Hdt)
    as (x & w & i & _ & Hev & Hi & Hw & Hx).
  cbv zeta in Hev, Hi, Hw, Hx. fold xcells p bs out in Hev, Hi, Hw, Hx.
  exists x, w, i. rewrite Hev, Hx.
  split; [| split; [exact Hw | split; [exact Hi |]]].
  - destruct ((out.2 >? 0) || (out.2 <? 0)); reflexivity.
  - intros Hne. assert (((out.2 >? 0) || (out.2 <? 0)) = true) as ->;
      [| reflexivity].
    apply orb_true_iff. destruct (Z.lt_trichotomy out.2 0) as [H | [H | H]];
      [right; lia | contradiction | left; lia].
Qed.

Lemma solver_dispatch_witness :
  ∃ dt : dtype_char,
    resolve_dtype (dtype Sample.i22) = inr dt
    ∧ let xcells := (if bool_decide (dt = dtype Sample.i22)
                     then cells_of Sample.store_int Sample.i22
                     else map (cast Sample.two_solvers (dtype Sample.i22) dt)
                            (cells_of Sample.store_int Sample.i22)) in
      let p := if bool_decide (dt = c_f) then Single else Double in
      let bs := potrf_bufferSize Sample.two_solvers p 2 xcells in
      let out := potrf Sample.two_solvers p 2 xcells bs in
      ∃ x w i : ptr,
        List.filter (λ ev, match ev with EvPotrf _ _ _ _ _ => true | _ => false end)
          (new_events Sample.store_int
             (cholesky Sample.two_solvers (Device Sample.i22)
                Sample.store_int).2)
        = [EvPotrf (if bool_decide (dt = c_f) then c_f else c_d) 2 x w i]
        ∧ heap (cholesky Sample.two_solvers (Device Sample.i22)
                  Sample.store_int).2 !! w = Some (replicate bs VUninit)
        ∧ heap (cholesky Sample.two_solvers (Device Sample.i22)
                  Sample.store_int).2 !! i = Some [VInt out.2]
        ∧ (out.2 ≠ 0 →
           heap (cholesky Sample.two_solvers (Device Sample.i22)
                   Sample.store_int).2 !! x
           = Some (overwrite xcells out.1)).
Proof.
  apply (solver_dispatch Sample.two_solvers Sample.store_int Sample.i22 2);
    reflexivity.
Defined.

Lemma tril_mask_all_false (m n : nat) (k : Z) :
  k < 1 - Z.of_nat m → Forall (λ b, b = false) (concat (tril_mask m n k)).
Proof.
  intros Hk. apply Forall_concat. unfold tril_mask, arange.
  rewrite !Forall_fmap. apply Forall_forall. intros u Hu. cbn.
  rewrite !Forall_fmap. apply Forall_forall. intros v _. cbn.
  apply elem_of_seq in Hu. apply Z.leb_gt. lia.
Qed.

Lemma zip_with_all_false_zero (c : dtype_char) (l : list scalar) (k : list bool) :
  Forall (λ e, is_finite e = true) l → Forall (λ b, b = false) k →
  Forall (λ e, is_zero e = true) (zip_with (imul_mask c) l k).
Proof.
  intros Hl. revert k. induction Hl as [| e l He _ IH]; intros k Hk;
    [constructor |].
  destruct Hk as [| b k -> Hk]; cbn [zip_with]; constructor; [| now apply IH].
  now apply imul_mask_false_finite.
Qed.

(** X21.  With [k < 1 - m] the mask keeps nothing: [_tril] turns a buffer
    of finite cells into a buffer of zeros of the same size. *)
Theorem tril_small_offset (x : ndarray) (k : Z) (m n : nat) (st : state) :
  shape x = [m; n] → k < 1 - Z.of_nat m →
  length (cells_of st x) = (m * n)%nat →
  Forall (λ e, is_finite e = true) (cells_of st x) →
  Forall (λ e, is_zero e = true) (cells_of (_tril x k st).2 x)
  ∧ length (cells_of (_tril x k st).2 x) = (m * n)%nat.
Proof.
  intros Hs Hk Hlen Hfin. rewrite (tril_run x k m n st Hs).
  unfold cells_of at 1 3. cbn [snd heap]. rewrite lookup_insert_eq.
  cbn [default from_option id]. split.
  - apply zip_with_all_false_zero; [exact Hfin | now apply tril_mask_all_false].
  - rewrite length_zip_with, Hlen, length_tril_mask. lia.
Qed.

Lemma tril_small_offset_witness :
  Forall (λ e, is_zero e = true)
    (cells_of (_tril Sample.a22 (-2) Sample.store_finite).2 Sample.a22)
  ∧ length (cells_of (_tril Sample.a22 (-2) Sample.store_finite).2 Sample.a22)
    = (2 * 2)%nat.
Proof.
  apply (tril_small_offset Sample.a22 (-2) 2 2 Sample.store_finite);
    [reflexivity | lia | reflexivity | repeat constructor].
Defined.
